(** * HabitatSimEvaluator: metric reducers and the physics configuration overlay

  A shallow embedding of [src/evaluators/habitat_sim_evaluator.py].

  - Python dictionaries are insertion-ordered: they are association lists
    with unique keys, read with [dict_get] and written with [dict_set]
    (assignment to a present key keeps its position, a new key goes last).
  - Exceptions are values of [exn]; a call that may raise returns a
    [result].
  - Metric values are taken in an arbitrary numeric type carrying the two
    operations the code applies to them ([+=] and [/ len(...)]); rationals
    instantiate it for the concrete examples.
  - [Config] objects are assigned into in place: they live in a store, a
    nested section is a reference, and the code runs in a state and
    exception monad over that store. *)

From Stdlib Require Import QArith.
From stdpp Require Import base option list strings.

Local Open Scope string_scope.
Local Open Scope list_scope.

(** ** Exceptions and results *)

Inductive exn : Type :=
  | KeyError (key : string)
  | AttributeError (name : string)
  | TypeError
  | ImportError
  | ZeroDivisionError
  | RuntimeError
  | NotImplementedError.

Inductive result (A : Type) : Type :=
  | Ok (a : A)
  | Raise (e : exn).
Arguments Ok {A} a.
Arguments Raise {A} e.

#[global] Instance result_ret : MRet result := fun _ a => Ok a.
#[global] Instance result_bind : MBind result := fun _ _ f r =>
  match r with
  | Ok a => f a
  | Raise e => Raise e
  end.

(** ** Ordered dictionaries with string keys *)

Abbreviation dict V := (list (string * V)).

Section Dict.
Context {V : Type}.

(** [d.get(k)]: the value stored under [k], if any. *)
Fixpoint dict_get (k : string) (d : dict V) : option V :=
  match d with
  | [] => None
  | (k', v) :: d' => if String.eqb k k' then Some v else dict_get k d'
  end.

(** [d[k] = v]. *)
Fixpoint dict_set (k : string) (v : V) (d : dict V) : dict V :=
  match d with
  | [] => [(k, v)]
  | (k', v') :: d' =>
      if String.eqb k k' then (k, v) :: d' else (k', v') :: dict_set k v d'
  end.

(** [d.keys()], in iteration order. *)
Definition dict_keys (d : dict V) : list string := d.*1.

(** [d[k]] as an expression: a missing key raises [KeyError]. *)
Definition getitem (k : string) (d : dict V) : result V :=
  match dict_get k d with
  | Some v => Ok v
  | None => Raise (KeyError k)
  end.

(** The invariant of a Python dictionary: no key occurs twice. *)
Definition wf_dict (d : dict V) : Prop := NoDup (dict_keys d).
End Dict.

(** ** The metric reducers *)

(** A [MetricsCollection] is well formed when it is a dictionary whose values
  are dictionaries. *)
Definition wf_collection {num : Type} (M : dict (dict num)) : Prop :=
  wf_dict M ∧ Forall (λ ep, wf_dict ep.2) M.

(** The numeric type of metric values: [nzero] is [float()], [nadd] is [+],
  and [ndiv v n] is [v / n] for a non-zero integer [n]. *)
Class Numeric (num : Type) : Type := {
  nzero : num;
  nadd : num → num → num;
  ndiv : num → nat → num
}.

Section Reducers.
Context {num : Type} `{!Numeric num}.

(** [v / n] where [n] is an integer: division by zero raises. *)
Definition true_div (v : num) (n : nat) : result num :=
  match n with
  | O => Raise ZeroDivisionError
  | S _ => Ok (ndiv v n)
  end.

(** [agg_metrics[m] += v] on a [defaultdict(float)]. *)
Definition accumulate (agg : dict num) (m : string) (v : num) : dict num :=
  dict_set m (nadd (default nzero (dict_get m agg)) v) agg.

(** [for m, v in metrics.items(): agg_metrics[m] += v]. *)
Definition add_episode (agg : dict num) (metrics : dict num) : dict num :=
  fold_left (λ a mv, accumulate a mv.1 mv.2) metrics agg.

(** The outer loop of [compute_avg_metrics], from an empty accumulator. *)
Definition aggregate (dict_of_metrics : dict (dict num)) : dict num :=
  fold_left (λ a ep, add_episode a ep.2) dict_of_metrics [].

(** [{k: v/n for k, v in items}], filling [acc] entry by entry. *)
Fixpoint avg_comprehension (items : dict num) (n : nat) (acc : dict num)
  : result (dict num) :=
  match items with
  | [] => Ok acc
  | (k, v) :: rest =>
      q ← true_div v n;
      avg_comprehension rest n (dict_set k q acc)
  end.

Definition compute_avg_metrics (dict_of_metrics : dict (dict num))
  : result (dict num) :=
  let agg_metrics := aggregate dict_of_metrics in
  avg_comprehension agg_metrics (length dict_of_metrics) [].

(** [{name: episode_metrics[name] for name in metric_names}]. *)
Fixpoint metrics_comprehension (episode_metrics : dict num)
    (metric_names : list string) (acc : dict num) : result (dict num) :=
  match metric_names with
  | [] => Ok acc
  | metric_name :: rest =>
      v ← getitem metric_name episode_metrics;
      metrics_comprehension episode_metrics rest (dict_set metric_name v acc)
  end.

(** The loop of [extract_metrics] over [dict_of_metrics.items()]. *)
Fixpoint extract_loop (items : dict (dict num)) (metric_names : list string)
    (new_dict_of_metrics : dict (dict num)) : result (dict (dict num)) :=
  match items with
  | [] => Ok new_dict_of_metrics
  | (episode_identifier, episode_metrics) :: rest =>
      d ← metrics_comprehension episode_metrics metric_names [];
      extract_loop rest metric_names
        (dict_set episode_identifier d new_dict_of_metrics)
  end.

Definition extract_metrics (dict_of_metrics : dict (dict num))
    (metric_names : list string) : result (dict (dict num)) :=
  extract_loop dict_of_metrics metric_names [].

(** *** Vocabulary of the specification *)

(** The values [M[e][k]] of the episodes [e] that contain [k], in episode
    order. *)
Definition values_of (k : string) (M : dict (dict num)) : list num :=
  omap (λ ep, dict_get k ep.2) M.

Definition sum (vs : list num) : num := fold_left nadd vs nzero.

(** The arithmetic mean of a list of values. *)
Definition mean (vs : list num) : num := ndiv (sum vs) (length vs).

Definition occurs (k : string) (M : dict (dict num)) : Prop :=
  ∃ e em, (e, em) ∈ M ∧ is_Some (dict_get k em).
End Reducers.

(** Rational metric values, for the concrete examples. *)
#[global] Instance Q_numeric : Numeric Q := {
  nzero := 0%Q;
  nadd := Qplus;
  ndiv q n := (q / inject_Z (Z.of_nat n))%Q
}.

(** ** Configuration objects

    A [Config] (a yacs [CfgNode]) is a dictionary object; the code assigns
    into such objects in place, so they live in a store and a nested section
    is held by reference.  The values a [Config] may hold besides nested
    [Config]s are immutable for this code: none, booleans, numbers, strings
    and sequences of these. *)

Abbreviation loc := nat.

#[warnings="-register-all"] Inductive leaf : Type :=
  | LNone
  | LBool (b : bool)
  | LInt (z : Z)
  | LFloat (q : Q)
  | LStr (s : string)
  | LSeq (items : list leaf).

Inductive value : Type :=
  | VLeaf (a : leaf)
  | VNode (l : loc).

(** The store: the object at location [l] is [h !! l]. *)
Abbreviation heap := (list (dict value)).

(** A computation reads and writes the store and returns or raises; the
    store it leaves behind is kept in both cases. *)
Definition py (A : Type) : Type := heap → heap * result A.

#[global] Instance py_ret : MRet py := λ _ a h, (h, Ok a).
#[global] Instance py_bind : MBind py := λ _ _ f m h,
  match m h with
  | (h', Ok a) => f a h'
  | (h', Raise e) => (h', Raise e)
  end.

Definition raise {A : Type} (e : exn) : py A := λ h, (h, Raise e).

(** The object behind a reference.  A reference held by a live object always
    has one; [RuntimeError] stands for the impossible case. *)
Definition deref (l : loc) : py (dict value) := λ h,
  match h !! l with
  | Some nd => (h, Ok nd)
  | None => (h, Raise RuntimeError)
  end.

(** Replace the object at [l]. *)
Definition update (l : loc) (nd : dict value) : py unit := λ h,
  (<[l := nd]> h, Ok ()).

(** [o.name]: attribute access on a [Config] reads the key [name]. *)
Definition getattr (o : value) (name : string) : py value :=
  match o with
  | VNode l =>
      nd ← deref l;
      match dict_get name nd with
      | Some v => mret v
      | None => raise (AttributeError name)
      end
  | VLeaf _ => raise (AttributeError name)
  end.

(** [o[k]] as an expression. *)
Definition subscript (o : value) (k : string) : py value :=
  match o with
  | VNode l =>
      nd ← deref l;
      match dict_get k nd with
      | Some v => mret v
      | None => raise (KeyError k)
      end
  | VLeaf _ => raise TypeError
  end.

(** [o[k] = v]. *)
Definition store (o : value) (k : string) (v : value) : py unit :=
  match o with
  | VNode l =>
      nd ← deref l;
      update l (dict_set k v nd)
  | VLeaf _ => raise TypeError
  end.

(** [isinstance(v, Config)]. *)
Definition isinstance_Config (v : value) : bool :=
  match v with
  | VNode _ => true
  | VLeaf _ => false
  end.

(** The iterator of [o.keys()]: before it yields the next key, or stops, it
    checks that the dictionary still has the size it had when the loop
    began.  The loop bodies below only assign, so a dictionary of unchanged
    size has unchanged keys. *)
Fixpoint iterate (l : loc) (size : nat) (ks : list string)
    (body : string → py unit) : py unit :=
  nd ← deref l;
  if decide (length nd = size) then
    match ks with
    | [] => mret ()
    | k :: ks' => body k;; iterate l size ks' body
    end
  else raise RuntimeError.

(** [for k in o.keys(): body]. *)
Definition for_in_keys (o : value) (body : string → py unit) : py unit :=
  match o with
  | VNode l => nd ← deref l; iterate l (length nd) (dict_keys nd) body
  | VLeaf _ => raise (AttributeError "keys")
  end.

(** Line 40, the body of the inner loop:
    [config.SIMULATOR[k][inner_k] = config.PHYSICS_SIMULATOR[k][inner_k]].
    The right-hand side is evaluated first. *)
Definition copy_field (config : value) (k inner_k : string) : py unit :=
  phys ← getattr config "PHYSICS_SIMULATOR";
  phys_k ← subscript phys k;
  v ← subscript phys_k inner_k;
  sim ← getattr config "SIMULATOR";
  sim_k ← subscript sim k;
  store sim_k inner_k v.

(** Lines 38 to 42, the body of the loop over the keys of
    [config.PHYSICS_SIMULATOR]. *)
Definition copy_key (config : value) (k : string) : py unit :=
  phys ← getattr config "PHYSICS_SIMULATOR";
  phys_k ← subscript phys k;
  if isinstance_Config phys_k then
    phys ← getattr config "PHYSICS_SIMULATOR";
    phys_k ← subscript phys k;
    for_in_keys phys_k (copy_field config k)
  else
    phys ← getattr config "PHYSICS_SIMULATOR";
    v ← subscript phys k;
    sim ← getattr config "SIMULATOR";
    store sim k v.

(** [overwrite_simulator_config(config)].  [physics_importable] tells whether
    the four imports of the [try] block succeed; when they do not, the
    [ImportError] is raised again after the message is printed. *)
Definition overwrite_simulator_config (physics_importable : bool)
    (config : value) : py unit :=
  phys ← getattr config "PHYSICS_SIMULATOR";
  for_in_keys phys (copy_key config);;
  if physics_importable then mret () else raise ImportError.

(** ** The evaluator and its abstract operations *)

Record HabitatSimEvaluator : Type := {
  config : value;
  input_type : string;
  model_path : string;
  enable_physics : bool
}.

Definition generate_video (self : HabitatSimEvaluator)
    (episode_id scene_id : string) (agent_seed : Z)
    (args : list value) (kwargs : dict value) : py unit :=
  raise NotImplementedError.

Definition generate_map (self : HabitatSimEvaluator)
    (episode_id scene_id : string) (agent_seed map_height : Z)
    (args : list value) (kwargs : dict value) : py (list (list Z)) :=
  raise NotImplementedError.

Definition evaluate_and_get_maps (self : HabitatSimEvaluator)
    (episode_id_last scene_id_last log_dir : string) (map_height : Z)
    (args : list value) (kwargs : dict value) : py (dict (dict Q)) :=
  raise NotImplementedError.

(** What the inner loop does to the section it writes: every field of
    [src] is assigned into [dst]. *)
Definition copy_fields (src dst : dict value) : dict value :=
  fold_left (λ d kv, dict_set kv.1 kv.2 d) src dst.

(** *** Reading a section as a nested mapping *)

#[warnings="-register-all"] Inductive tree : Type :=
  | TLeaf (a : leaf)
  | TNode (fields : list (string * tree)).

(** The nested mapping that [v] denotes in store [h], followed to at most
    [depth] levels of nesting. *)
Fixpoint reify (depth : nat) (h : heap) (v : value) : option tree :=
  match v with
  | VLeaf a => Some (TLeaf a)
  | VNode l =>
      match depth with
      | O => None
      | S depth' =>
          nd ← h !! l;
          fields ← mapM (λ kv, t ← reify depth' h kv.2; Some (kv.1, t)) nd;
          Some (TNode fields)
      end
  end.

(** The objects met while reading [v], one entry per path. *)
Fixpoint locs_of (depth : nat) (h : heap) (v : value) : option (list loc) :=
  match v with
  | VLeaf _ => Some []
  | VNode l =>
      match depth with
      | O => None
      | S depth' =>
          nd ← h !! l;
          below ← mapM (λ kv, locs_of depth' h kv.2) nd;
          Some (l :: mjoin below)
      end
  end.

(** A configuration is hierarchical when no object is reached along two
    paths: sections share nothing and contain no cycle. *)
Definition hierarchical (h : heap) (v : value) : Prop :=
  ∃ depth ls, locs_of depth h v = Some ls ∧ NoDup ls.

Definition wf_heap (h : heap) : Prop := Forall wf_dict h.

(** The layout the overlay relies on: [config] holds its two sections, which
    are objects of their own, and the sections of [SIMULATOR] are shared
    neither with each other nor with [config] or [PHYSICS_SIMULATOR]. *)
Record layout (h : heap) (c s p : loc) (cn sn pn : dict value) : Prop := {
  lay_config : h !! c = Some cn;
  lay_sim_attr : dict_get "SIMULATOR" cn = Some (VNode s);
  lay_phys_attr : dict_get "PHYSICS_SIMULATOR" cn = Some (VNode p);
  lay_sim : h !! s = Some sn;
  lay_phys : h !! p = Some pn;
  lay_phys_wf : wf_dict pn;
  lay_config_sim : c ≠ s;
  lay_phys_sim : p ≠ s;
  lay_sub : ∀ k q, dict_get k pn = Some (VNode q) →
    q ≠ s ∧ ∃ qn, h !! q = Some qn ∧ wf_dict qn;
  lay_child : ∀ k t, dict_get k sn = Some (VNode t) →
    is_Some (h !! t) ∧ t ≠ c ∧ t ≠ p ∧ t ≠ s
    ∧ ∀ k' q, dict_get k' pn = Some (VNode q) → t ≠ q;
  lay_child_inj : ∀ k k' t,
    dict_get k sn = Some (VNode t) → dict_get k' sn = Some (VNode t) → k = k'
}.

(** The state of the store once the entries [done] of [PHYSICS_SIMULATOR]
    have been copied, in terms of the store [h] the call began with. *)
Definition merged_upto (h : heap) (s : loc) (sn done : dict value)
    (h1 : heap) : Prop :=
  (∀ l, l ≠ s → (∀ k, dict_get k sn ≠ Some (VNode l)) → h1 !! l = h !! l)
  ∧ (∃ sn1, h1 !! s = Some sn1
      ∧ ∀ k, dict_get k sn1
             = match dict_get k done with
               | Some (VLeaf a) => Some (VLeaf a)
               | _ => dict_get k sn
               end)
  ∧ (∀ k t, dict_get k sn = Some (VNode t) →
      ∃ tn tn1, h !! t = Some tn ∧ h1 !! t = Some tn1
      ∧ ∀ ik, dict_get ik tn1
              = match dict_get k done with
                | Some (VNode q) =>
                    match h !! q ≫= dict_get ik with
                    | Some v => Some v
                    | None => dict_get ik tn
                    end
                | _ => dict_get ik tn
                end).

(** An entry of [PHYSICS_SIMULATOR] can be copied when it is a leaf, an
    empty section, or a section that [SIMULATOR] has as a section too. *)
Definition copyable (h : heap) (sn : dict value) (kv : string * value) : Prop :=
  ∀ q, kv.2 = VNode q →
    h !! q = Some [] ∨ ∃ t, dict_get kv.1 sn = Some (VNode t).

(** [h[l][k]], when [l] is an object with a key [k]. *)
Definition field (h : heap) (l : loc) (k : string) : option value :=
  h !! l ≫= dict_get k.

(** Every value of [entries] is found in the section [s]: a leaf under its
    key, a field of a nested section under its key in the section of [s] of
    the same name. *)
Definition copied_into (h : heap) (s : loc) (entries : dict value) : Prop :=
  ∀ k v, dict_get k entries = Some v →
    match v with
    | VLeaf a => field h s k = Some (VLeaf a)
    | VNode q =>
        ∀ ik iv, field h q ik = Some iv →
          ∃ t, field h s k = Some (VNode t) ∧ field h t ik = Some iv
    end.

(** Every value that [entries] had in the store [h] the call began with is
    found in the section [s] of the store [h'] it left: a leaf under its key;
    a field that a nested section had in [h], under its key in the section
    that [s] had under the same name in [h] and still has in [h']. *)
Definition copied_from (h h' : heap) (s : loc) (entries : dict value) : Prop :=
  ∀ k v, dict_get k entries = Some v →
    match v with
    | VLeaf a => field h' s k = Some (VLeaf a)
    | VNode q =>
        ∀ ik iv, field h q ik = Some iv →
          ∃ t, field h s k = Some (VNode t)
               ∧ field h' s k = Some (VNode t)
               ∧ field h' t ik = Some iv
    end.

(** The specification's overlay example: [config] is object 0, its
    [SIMULATOR] section object 1 and its [PHYSICS_SIMULATOR] section
    object 2. *)
Definition example_heap : heap :=
  [ [("SIMULATOR", VNode 1); ("PHYSICS_SIMULATOR", VNode 2)];
    [("A", VLeaf (LInt 1)); ("B", VNode 3)];
    [("A", VLeaf (LInt 9)); ("B", VNode 4)];
    [("x", VLeaf (LInt 1)); ("y", VLeaf (LInt 2))];
    [("x", VLeaf (LInt 8))] ].

(** The store of the example once the overlay has run. *)
Definition example_heap_after : heap :=
  [ [("SIMULATOR", VNode 1); ("PHYSICS_SIMULATOR", VNode 2)];
    [("A", VLeaf (LInt 9)); ("B", VNode 3)];
    [("A", VLeaf (LInt 9)); ("B", VNode 4)];
    [("x", VLeaf (LInt 8)); ("y", VLeaf (LInt 2))];
    [("x", VLeaf (LInt 8))] ].

(** A store that is not hierarchical: object 3 is both [SIMULATOR.B] and
    [PHYSICS_SIMULATOR.C]. *)
Definition shared_section_heap : heap :=
  [ [("SIMULATOR", VNode 1); ("PHYSICS_SIMULATOR", VNode 2)];
    [("B", VNode 3); ("C", VNode 5)];
    [("B", VNode 4); ("C", VNode 3)];
    [("x", VLeaf (LInt 1))];
    [("x", VLeaf (LInt 8))];
    [("x", VLeaf (LInt 0))] ].

(** [PHYSICS_SIMULATOR] has an empty section [HABITAT_SIM_V0], and
    [SIMULATOR] has no key of that name. *)
Definition empty_section_heap : heap :=
  [ [("SIMULATOR", VNode 1); ("PHYSICS_SIMULATOR", VNode 2)];
    [("TYPE", VLeaf (LStr "Sim-v0"))];
    [("HABITAT_SIM_V0", VNode 3)];
    [] ].

(** [PHYSICS_SIMULATOR] has a section [B] with a field, after a leaf [A],
    and [SIMULATOR] has no key [B]. *)
Definition missing_section_heap : heap :=
  [ [("SIMULATOR", VNode 1); ("PHYSICS_SIMULATOR", VNode 2)];
    [("A", VLeaf (LInt 1))];
    [("A", VLeaf (LInt 9)); ("B", VNode 3)];
    [("x", VLeaf (LInt 8))] ].

(** Two episodes, the second without the metric [spl]. *)
Definition two_episodes : dict (dict Q) :=
  [ ("0,skokloster-castle.glb",
      [("distance_to_goal", 1%Q); ("spl", 2%Q)]);
    ("1,skokloster-castle.glb",
      [("distance_to_goal", 3%Q)]) ].

(** * Facts about ordered dictionaries *)

Section DictFacts.
Context {V : Type}.
Implicit Types (d : dict V) (k : string) (v : V).

Lemma dict_get_set_eq k v d : dict_get k (dict_set k v d) = Some v.
Proof.
  induction d as [|[k' v'] d IH]; simpl.
  - by rewrite String.eqb_refl.
  - destruct (String.eqb_spec k k') as [->|Hne]; simpl.
    + by rewrite String.eqb_refl.
    + by destruct (String.eqb_spec k k').
Qed.

Lemma dict_get_set_ne k k' v d :
  k ≠ k' → dict_get k' (dict_set k v d) = dict_get k' d.
Proof.
  intros Hne. induction d as [|[k0 v0] d IH]; simpl.
  - by destruct (String.eqb_spec k' k) as [->|].
  - destruct (String.eqb_spec k k0) as [->|]; simpl.
    + destruct (String.eqb_spec k' k0); congruence.
    + by rewrite IH.
Qed.

Lemma dict_get_None k d : dict_get k d = None ↔ k ∉ dict_keys d.
Proof.
  unfold dict_keys. induction d as [|[k' v'] d IH]; simpl.
  - split; [intros _; apply not_elem_of_nil | done].
  - rewrite not_elem_of_cons, <- IH.
    destruct (String.eqb_spec k k'); [split; [done|tauto] | tauto].
Qed.

Lemma dict_get_is_Some k d : is_Some (dict_get k d) ↔ k ∈ dict_keys d.
Proof.
  rewrite <- not_eq_None_Some, dict_get_None.
  split; [apply dec_stable | tauto].
Qed.

Lemma dict_get_elem_of k v d : dict_get k d = Some v → (k, v) ∈ d.
Proof.
  induction d as [|[k' v'] d IH]; simpl; [done|].
  destruct (String.eqb_spec k k') as [->|].
  - intros [= ->]. apply elem_of_cons; auto.
  - intros. apply elem_of_cons; auto.
Qed.

Lemma elem_of_dict_get k v d : wf_dict d → (k, v) ∈ d → dict_get k d = Some v.
Proof.
  unfold wf_dict, dict_keys.
  induction d as [|[k' v'] d IH]; simpl; intros Hnd Hin.
  - by apply elem_of_nil in Hin.
  - apply NoDup_cons in Hnd as [Hk' Hnd].
    apply elem_of_cons in Hin as [[= -> ->]|Hin].
    + by rewrite String.eqb_refl.
    + destruct (String.eqb_spec k k') as [->|]; [|by apply IH].
      destruct Hk'. apply (list_elem_of_fmap_2 fst) in Hin. done.
Qed.

Lemma dict_keys_set k v d :
  dict_keys (dict_set k v d)
  = match dict_get k d with
    | Some _ => dict_keys d
    | None => dict_keys d ++ [k]
    end.
Proof.
  unfold dict_keys. induction d as [|[k' v'] d IH]; [done|].
  cbn [dict_set dict_get].
  destruct (String.eqb_spec k k') as [->|]; [done|].
  rewrite !fmap_cons, IH. by destruct (dict_get k d).
Qed.

Lemma wf_dict_set k v d : wf_dict d → wf_dict (dict_set k v d).
Proof.
  unfold wf_dict. intros Hnd. rewrite dict_keys_set.
  destruct (dict_get k d) eqn:Hget; [done|].
  apply dict_get_None in Hget.
  apply NoDup_app. split_and!; [done | | apply NoDup_singleton].
  intros x Hx ->%list_elem_of_singleton. done.
Qed.

Lemma wf_dict_nil : wf_dict (@nil (string * V)).
Proof. apply NoDup_nil_2. Qed.
End DictFacts.

(** A loop that assigns [acc[k] = g(acc.get(k), v)] for every item [(k, v)]
    of a dictionary touches each key once. *)
Lemma fold_set_get {A B : Type} (g : option B → A → B) (k : string)
    (items : dict A) (acc : dict B) :
  wf_dict items →
  dict_get k
    (fold_left (λ a kv, dict_set kv.1 (g (dict_get kv.1 a) kv.2) a) items acc)
  = match dict_get k items with
    | Some v => Some (g (dict_get k acc) v)
    | None => dict_get k acc
    end.
Proof.
  unfold wf_dict, dict_keys. revert acc.
  induction items as [|[m v] items IH]; intros acc Hnd; [done|].
  rewrite fmap_cons in Hnd. apply NoDup_cons in Hnd as [Hm Hnd].
  cbn [fst] in Hm.
  cbn [fold_left dict_get]. rewrite IH by done. cbn [fst snd].
  destruct (String.eqb_spec k m) as [->|Hne].
  - apply dict_get_None in Hm. by rewrite Hm, dict_get_set_eq.
  - rewrite dict_get_set_ne by done. done.
Qed.

Lemma fold_set_wf {A B : Type} (g : option B → A → B)
    (items : dict A) (acc : dict B) :
  wf_dict acc →
  wf_dict
    (fold_left (λ a kv, dict_set kv.1 (g (dict_get kv.1 a) kv.2) a) items acc).
Proof.
  revert acc. induction items as [|[m v] items IH]; intros acc Hwf; [done|].
  cbn [fold_left]. by apply IH, wf_dict_set.
Qed.

(** * The metric reducers *)

Section ReducerFacts.
Context {num : Type} `{!Numeric num}.
Implicit Types (M : dict (dict num)) (agg em : dict num) (k : string).

Lemma add_episode_get k agg em :
  wf_dict em →
  dict_get k (add_episode agg em)
  = match dict_get k em with
    | Some v => Some (nadd (default nzero (dict_get k agg)) v)
    | None => dict_get k agg
    end.
Proof.
  intros. unfold add_episode, accumulate.
  by rewrite (fold_set_get (λ o v, nadd (default nzero o) v)).
Qed.

Lemma add_episode_wf agg em : wf_dict agg → wf_dict (add_episode agg em).
Proof.
  intros. unfold add_episode, accumulate.
  by apply (fold_set_wf (λ o v, nadd (default nzero o) v)).
Qed.

Lemma aggregate_from_wf M agg :
  wf_dict agg → wf_dict (fold_left (λ a ep, add_episode a ep.2) M agg).
Proof.
  revert agg. induction M as [|[e em] M IH]; intros agg Hwf; [done|].
  cbn [fold_left]. by apply IH, add_episode_wf.
Qed.

Lemma aggregate_wf M : wf_dict (aggregate M).
Proof. apply aggregate_from_wf, wf_dict_nil. Qed.

Lemma aggregate_from_get k M agg :
  Forall (λ ep, wf_dict ep.2) M →
  dict_get k (fold_left (λ a ep, add_episode a ep.2) M agg)
  = fold_left (λ o v, Some (nadd (default nzero o) v)) (values_of k M)
      (dict_get k agg).
Proof.
  revert agg. induction M as [|[e em] M IH]; intros agg Hwf; [done|].
  apply Forall_cons in Hwf as [Hem Hwf].
  cbn [fold_left values_of omap list_omap snd]. rewrite IH by done.
  rewrite add_episode_get by done.
  by destruct (dict_get k em).
Qed.

Lemma fold_running_sum (vs : list num) (a : num) :
  fold_left (λ o v, Some (nadd (default nzero o) v)) vs (Some a)
  = Some (fold_left nadd vs a).
Proof. revert a. induction vs as [|v vs IH]; intros a; [done|apply IH]. Qed.

(** The accumulator holds, for each metric name met so far, the running sum
    of its values, starting from [float()]. *)
Lemma aggregate_get k M :
  Forall (λ ep, wf_dict ep.2) M →
  dict_get k (aggregate M)
  = match values_of k M with
    | [] => None
    | vs => Some (sum vs)
    end.
Proof.
  intros Hwf. unfold aggregate. rewrite aggregate_from_get by done.
  cbn [dict_get]. destruct (values_of k M) as [|v vs]; [done|].
  cbn [fold_left default]. apply fold_running_sum.
Qed.

Lemma values_of_nil_iff k M : values_of k M = [] ↔ ¬ occurs k M.
Proof.
  unfold values_of, occurs. induction M as [|[e em] M IH].
  - split; [|done]. intros _ (? & ? & []%elem_of_nil & _).
  - cbn [omap list_omap snd].
    destruct (dict_get k em) as [v|] eqn:Hget.
    + split; [done|]. intros []. exists e, em. rewrite Hget.
      split; [apply elem_of_cons; auto | eauto].
    + rewrite IH. split.
      * intros Hno (e' & em' & [[= -> ->]|Hin]%elem_of_cons & Hsome).
        -- rewrite Hget in Hsome. by destruct Hsome.
        -- apply Hno. eauto.
      * intros Hno (e' & em' & Hin & Hsome). apply Hno.
        exists e', em'. split; [apply elem_of_cons; auto | done].
Qed.

Lemma values_of_occurs k M : values_of k M ≠ [] → occurs k M.
Proof.
  unfold values_of, occurs. induction M as [|[e em] M IH]; [done|].
  cbn [omap list_omap snd].
  destruct (dict_get k em) as [v|] eqn:Hget.
  - intros _. exists e, em. rewrite Hget. split; [apply list_elem_of_here|eauto].
  - intros (e' & em' & Hin & Hsome)%IH. exists e', em'.
    split; [apply elem_of_cons; auto | done].
Qed.

Lemma values_of_length_all k M :
  (∀ e em, (e, em) ∈ M → is_Some (dict_get k em)) →
  length (values_of k M) = length M.
Proof.
  unfold values_of. induction M as [|[e em] M IH]; intros Hall; [done|].
  cbn [omap list_omap snd].
  destruct (Hall e em) as [v ->]; [apply elem_of_cons; auto|].
  cbn [length]. f_equal. apply IH. intros e' em' Hin.
  apply (Hall e' em'), elem_of_cons; auto.
Qed.

(** The comprehension divides every accumulated sum; it raises only when an
    entry is divided by a zero count. *)
Lemma avg_comprehension_pos items n acc :
  avg_comprehension items (S n) acc
  = Ok (fold_left (λ a kv, dict_set kv.1 (ndiv kv.2 (S n)) a) items acc).
Proof.
  revert acc. induction items as [|[k v] items IH]; intros acc; [done|].
  cbn [avg_comprehension true_div fold_left]. apply IH.
Qed.

Lemma compute_avg_metrics_eq M :
  compute_avg_metrics M
  = Ok (fold_left (λ a kv, dict_set kv.1 (ndiv kv.2 (length M)) a)
          (aggregate M) []).
Proof.
  unfold compute_avg_metrics. destruct M as [|em M]; [done|].
  cbn [length]. apply avg_comprehension_pos.
Qed.

Lemma compute_avg_metrics_get k M R :
  compute_avg_metrics M = Ok R →
  Forall (λ ep, wf_dict ep.2) M →
  dict_get k R
  = match values_of k M with
    | [] => None
    | vs => Some (ndiv (sum vs) (length M))
    end.
Proof.
  rewrite compute_avg_metrics_eq. intros [= <-] Hwf.
  rewrite (fold_set_get (λ _ v, ndiv v (length M))) by apply aggregate_wf.
  rewrite aggregate_get by done. by destruct (values_of k M).
Qed.
End ReducerFacts.

Section ExtractFacts.
Context {num : Type} `{!Numeric num}.
Implicit Types (M R : dict (dict num)) (em d acc : dict num).
Implicit Types (k n e : string) (names : list string).

Lemma dict_set_fresh {V : Type} k (v : V) (dv : dict V) :
  dict_get k dv = None → dict_set k v dv = dv ++ [(k, v)].
Proof.
  induction dv as [|[k' v'] dv IH]; cbn [dict_get dict_set]; [done|].
  destruct (String.eqb_spec k k'); [done|]. intros ?. by rewrite IH.
Qed.

Lemma metrics_comprehension_Ok em names acc d :
  metrics_comprehension em names acc = Ok d →
  (∀ n, n ∈ names → is_Some (dict_get n em))
  ∧ (∀ k, dict_get k d
          = if decide (k ∈ names) then dict_get k em else dict_get k acc)
  ∧ (wf_dict acc → wf_dict d).
Proof.
  revert acc. induction names as [|n names IH]; intros acc.
  - intros [= <-]. split_and!; [by intros ? ?%elem_of_nil | | done].
    intros k. by rewrite decide_False by apply not_elem_of_nil.
  - cbn [metrics_comprehension]. unfold getitem.
    destruct (dict_get n em) as [v|] eqn:Hn; [|done]. cbn [mbind result_bind].
    intros (Hall & Hget & Hwf)%IH. split_and!.
    + intros n' [->|?]%elem_of_cons; [by rewrite Hn | by apply Hall].
    + intros k. rewrite Hget.
      destruct (decide (k ∈ names)) as [Hin|Hin].
      * rewrite decide_True by (apply elem_of_cons; auto). done.
      * destruct (decide (k = n)) as [->|Hne].
        -- rewrite decide_True by apply list_elem_of_here.
           by rewrite dict_get_set_eq.
        -- rewrite decide_False by (rewrite elem_of_cons; tauto).
           by rewrite dict_get_set_ne.
    + intros. by apply Hwf, wf_dict_set.
Qed.

Lemma metrics_comprehension_Raise em names acc err :
  metrics_comprehension em names acc = Raise err →
  ∃ n, err = KeyError n ∧ n ∈ names ∧ dict_get n em = None.
Proof.
  revert acc. induction names as [|n names IH]; intros acc; [done|].
  cbn [metrics_comprehension]. unfold getitem.
  destruct (dict_get n em) as [v|] eqn:Hn; cbn [mbind result_bind].
  - intros (n' & -> & Hin & Hnone)%IH. exists n'.
    split_and!; [done | apply elem_of_cons; auto | done].
  - intros [= <-]. exists n. split_and!; [done | apply list_elem_of_here | done].
Qed.

Lemma metrics_comprehension_total em names acc :
  (∀ n, n ∈ names → is_Some (dict_get n em)) →
  ∃ d, metrics_comprehension em names acc = Ok d.
Proof.
  intros Hall. destruct (metrics_comprehension em names acc) as [d|err] eqn:E.
  - eauto.
  - apply metrics_comprehension_Raise in E as (n & _ & Hin & Hnone).
    destruct (Hall n Hin) as [v Hv]. congruence.
Qed.

(** With distinct episode identifiers the loop appends one narrowed entry per
    episode, in order. *)
Lemma extract_loop_Ok items names new R :
  extract_loop items names new = Ok R →
  NoDup (dict_keys new ++ dict_keys items) →
  ∃ ds, R = new ++ zip (dict_keys items) ds
        ∧ Forall2 (λ ep d, metrics_comprehension ep.2 names [] = Ok d) items ds.
Proof.
  revert new. induction items as [|[e em] items IH]; intros new.
  - intros [= <-] _. exists []. by rewrite app_nil_r.
  - cbn [extract_loop].
    destruct (metrics_comprehension em names []) as [d|] eqn:Hd; [|done].
    cbn [mbind result_bind].
    intros Hloop Hnd.
    assert (dict_get e new = None) as Hfresh.
    { apply dict_get_None. apply NoDup_app in Hnd as (_ & Hdisj & _).
      intros Hin. apply (Hdisj e Hin). unfold dict_keys.
      rewrite fmap_cons. apply list_elem_of_here. }
    rewrite dict_set_fresh in Hloop by done.
    apply IH in Hloop as (ds & -> & Hall).
    + exists (d :: ds). split; [|by constructor].
      unfold dict_keys. rewrite fmap_cons. cbn [zip zip_with fst].
      by rewrite <- app_assoc.
    + unfold dict_keys in *. rewrite fmap_app, fmap_cons in *.
      cbn [fmap list_fmap fst] in *. by rewrite <- app_assoc.
Qed.

Lemma extract_loop_Raise items names new err :
  extract_loop items names new = Raise err →
  ∃ e em, (e, em) ∈ items ∧ metrics_comprehension em names [] = Raise err.
Proof.
  revert new. induction items as [|[e em] items IH]; intros new; [done|].
  cbn [extract_loop].
  destruct (metrics_comprehension em names []) as [d|err'] eqn:Hd;
    cbn [mbind result_bind].
  - intros (e' & em' & Hin & Hraise)%IH. exists e', em'.
    split; [apply elem_of_cons; auto | done].
  - intros [= <-]. exists e, em. split; [apply list_elem_of_here | done].
Qed.

Lemma extract_loop_total items names new :
  (∀ e em n, (e, em) ∈ items → n ∈ names → is_Some (dict_get n em)) →
  ∃ R, extract_loop items names new = Ok R.
Proof.
  intros Hall. destruct (extract_loop items names new) as [R|err] eqn:E.
  - eauto.
  - apply extract_loop_Raise in E as (e & em & Hin & Hraise).
    apply metrics_comprehension_Raise in Hraise as (n & _ & Hn & Hnone).
    destruct (Hall e em n Hin Hn) as [v Hv]. congruence.
Qed.
End ExtractFacts.

(** * Properties of [compute_avg_metrics] *)

Section AverageClaims.
Context {num : Type} `{!Numeric num}.
Implicit Types (M R : dict (dict num)) (k : string).

(** C1, as amended: for a non-empty collection [M] and a metric name [k] that
    occurs in some episode, [compute_avg_metrics(M)[k]] is the sum of
    [M[e][k]] over the episodes [e] that contain [k], divided by the number
    of all episodes of [M]; it is the arithmetic mean over the episodes that
    contain [k] when every episode contains [k]. *)
Theorem avg_metric_sum_over_episode_count M k :
  wf_collection M → M ≠ [] → occurs k M →
  ∃ avg_metrics,
    compute_avg_metrics M = Ok avg_metrics
    ∧ dict_get k avg_metrics
      = Some (ndiv (sum (values_of k M)) (length M))
    ∧ ((∀ e em, (e, em) ∈ M → is_Some (dict_get k em)) →
       dict_get k avg_metrics = Some (mean (values_of k M))).
Proof.
  intros [_ Hwf] _ Hocc. rewrite compute_avg_metrics_eq.
  eexists. split; [done|].
  assert (dict_get k
            (fold_left (λ a kv, dict_set kv.1 (ndiv kv.2 (length M)) a)
               (aggregate M) [])
          = Some (ndiv (sum (values_of k M)) (length M))) as Hk.
  { rewrite (compute_avg_metrics_get k M _ (compute_avg_metrics_eq M) Hwf).
    destruct (values_of k M) eqn:Hvs; [|done].
    by apply values_of_nil_iff in Hvs. }
  split; [done|]. intros Hall. rewrite Hk. unfold mean.
  by rewrite values_of_length_all.
Qed.

(** C2: for a non-empty collection, [compute_avg_metrics] returns without
    error a dictionary with one entry per metric name that occurs in some
    episode; the entry of a name is the sum of its values over the episodes
    where it occurs, divided by the number of all episodes. *)
Theorem avg_metrics_sum_divided_by_total M :
  wf_collection M → M ≠ [] →
  ∃ avg_metrics,
    compute_avg_metrics M = Ok avg_metrics
    ∧ wf_dict avg_metrics
    ∧ (∀ k, k ∈ dict_keys avg_metrics ↔ occurs k M)
    ∧ (∀ k, occurs k M →
         dict_get k avg_metrics
         = Some (ndiv (sum (values_of k M)) (length M))).
Proof.
  intros [_ Hwf] _. pose proof (compute_avg_metrics_eq M) as Heq.
  eexists. split; [exact Heq|].
  assert (∀ k, dict_get k
            (fold_left (λ a kv, dict_set kv.1 (ndiv kv.2 (length M)) a)
               (aggregate M) [])
          = match values_of k M with
            | [] => None
            | vs => Some (ndiv (sum vs) (length M))
            end) as Hget.
  { intros k. by apply compute_avg_metrics_get. }
  split_and!.
  - apply (fold_set_wf (λ _ v, ndiv v (length M))), wf_dict_nil.
  - intros k. rewrite <- dict_get_is_Some, Hget.
    destruct (values_of k M) eqn:Hvs.
    + apply values_of_nil_iff in Hvs. split; [by intros []|done].
    + split; [intros _|eauto]. apply values_of_occurs. congruence.
  - intros k Hocc. rewrite Hget.
    destruct (values_of k M) eqn:Hvs; [|done].
    by apply values_of_nil_iff in Hvs.
Qed.

(** C6, as amended: on the empty collection the accumulator is empty, so the
    comprehension divides nothing and [compute_avg_metrics] returns the empty
    dictionary; no collection at all makes it raise. *)
Theorem avg_metrics_empty :
  compute_avg_metrics (@nil (string * dict num)) = Ok []
  ∧ ∀ M err, compute_avg_metrics M ≠ Raise err.
Proof.
  split; [reflexivity|]. intros M err. by rewrite compute_avg_metrics_eq.
Qed.
End AverageClaims.

(** * Running configuration code *)

Lemma run_bind {A B : Type} (m : py A) (f : A → py B) (h h' : heap) (a : A) :
  m h = (h', Ok a) → (m ≫= f) h = f a h'.
Proof. unfold mbind, py_bind. by intros ->. Qed.

Lemma run_bind_raise {A B : Type} (m : py A) (f : A → py B) (h h' : heap) e :
  m h = (h', Raise e) → (m ≫= f) h = (h', Raise e).
Proof. unfold mbind, py_bind. by intros ->. Qed.

Lemma run_deref (h : heap) (l : loc) nd : h !! l = Some nd → deref l h = (h, Ok nd).
Proof. unfold deref. by intros ->. Qed.

Lemma run_getattr (h : heap) (l : loc) nd name v :
  h !! l = Some nd → dict_get name nd = Some v →
  getattr (VNode l) name h = (h, Ok v).
Proof.
  intros Hl Hv. unfold getattr. rewrite (run_bind _ _ h h nd) by by apply run_deref.
  by rewrite Hv.
Qed.

Lemma run_subscript (h : heap) (l : loc) nd k v :
  h !! l = Some nd → dict_get k nd = Some v →
  subscript (VNode l) k h = (h, Ok v).
Proof.
  intros Hl Hv. unfold subscript.
  rewrite (run_bind _ _ h h nd) by by apply run_deref. by rewrite Hv.
Qed.

Lemma run_subscript_missing (h : heap) (l : loc) nd k :
  h !! l = Some nd → dict_get k nd = None →
  subscript (VNode l) k h = (h, Raise (KeyError k)).
Proof.
  intros Hl Hv. unfold subscript.
  rewrite (run_bind _ _ h h nd) by by apply run_deref. by rewrite Hv.
Qed.

Lemma run_store (h : heap) (l : loc) nd k v :
  h !! l = Some nd →
  store (VNode l) k v h = (<[l := dict_set k v nd]> h, Ok ()).
Proof.
  intros Hl. unfold store.
  by rewrite (run_bind _ _ h h nd) by by apply run_deref.
Qed.

Lemma run_iterate_nil (h : heap) (l : loc) nd body :
  h !! l = Some nd → iterate l (length nd) [] body h = (h, Ok ()).
Proof.
  intros Hl. cbn [iterate].
  rewrite (run_bind _ _ h h nd) by by apply run_deref.
  by rewrite decide_True.
Qed.

Lemma run_iterate_cons (h : heap) (l : loc) nd k ks body :
  h !! l = Some nd →
  iterate l (length nd) (k :: ks) body h
  = (body k;; iterate l (length nd) ks body) h.
Proof.
  intros Hl. cbn [iterate].
  rewrite (run_bind _ _ h h nd) by by apply run_deref.
  by rewrite decide_True.
Qed.

(** * The overlay, one key at a time *)

Section CopyKey.
Variables (c s p : loc) (cn pn : dict value).
Hypothesis Hsim : dict_get "SIMULATOR" cn = Some (VNode s).
Hypothesis Hphys : dict_get "PHYSICS_SIMULATOR" cn = Some (VNode p).

Lemma copy_field_run (h : heap) k q qn sn t tn ik iv :
  h !! c = Some cn → h !! p = Some pn → h !! s = Some sn →
  dict_get k pn = Some (VNode q) → h !! q = Some qn →
  dict_get ik qn = Some iv →
  dict_get k sn = Some (VNode t) → h !! t = Some tn →
  copy_field (VNode c) k ik h = (<[t := dict_set ik iv tn]> h, Ok ()).
Proof.
  intros Hc Hp Hs Hk Hq Hik Hsk Ht. unfold copy_field.
  rewrite (run_bind _ _ h h (VNode p)) by by eapply run_getattr.
  rewrite (run_bind _ _ h h (VNode q)) by by eapply run_subscript.
  rewrite (run_bind _ _ h h iv) by by eapply run_subscript.
  rewrite (run_bind _ _ h h (VNode s)) by by eapply run_getattr.
  rewrite (run_bind _ _ h h (VNode t)) by by eapply run_subscript.
  by apply run_store.
Qed.

Lemma copy_field_missing (h : heap) k q qn sn ik iv :
  h !! c = Some cn → h !! p = Some pn → h !! s = Some sn →
  dict_get k pn = Some (VNode q) → h !! q = Some qn →
  dict_get ik qn = Some iv →
  dict_get k sn = None →
  copy_field (VNode c) k ik h = (h, Raise (KeyError k)).
Proof.
  intros Hc Hp Hs Hk Hq Hik Hsk. unfold copy_field.
  rewrite (run_bind _ _ h h (VNode p)) by by eapply run_getattr.
  rewrite (run_bind _ _ h h (VNode q)) by by eapply run_subscript.
  rewrite (run_bind _ _ h h iv) by by eapply run_subscript.
  rewrite (run_bind _ _ h h (VNode s)) by by eapply run_getattr.
  apply run_bind_raise. by eapply run_subscript_missing.
Qed.

(** The inner loop, when [SIMULATOR[k]] is an object [t] of its own. *)
Lemma inner_loop_run k q qn t sn :
  wf_dict qn → dict_get k pn = Some (VNode q) →
  dict_get k sn = Some (VNode t) →
  t ≠ c → t ≠ p → t ≠ s → t ≠ q →
  ∀ todo done (h : heap) tn,
    qn = done ++ todo →
    h !! c = Some cn → h !! p = Some pn → h !! s = Some sn →
    h !! q = Some qn → h !! t = Some tn →
    iterate q (length qn) (dict_keys todo) (copy_field (VNode c) k) h
    = (<[t := copy_fields todo tn]> h, Ok ()).
Proof.
  intros Hwf Hk Hsk Htc Htp Hts Htq.
  induction todo as [|[ik iv] todo IH]; intros done h tn Hqn Hc Hp Hs Hq Ht.
  - cbn [dict_keys fmap list_fmap copy_fields fold_left].
    rewrite list_insert_id by done. by apply run_iterate_nil.
  - unfold dict_keys. rewrite fmap_cons. cbn [fst].
    rewrite run_iterate_cons by done.
    assert (dict_get ik qn = Some iv) as Hik.
    { apply elem_of_dict_get; [done|]. rewrite Hqn.
      apply elem_of_app. right. apply list_elem_of_here. }
    rewrite (run_bind _ _ h (<[t := dict_set ik iv tn]> h) ())
      by by eapply copy_field_run.
    fold (dict_keys todo).
    rewrite (IH (done ++ [(ik, iv)]) _ (dict_set ik iv tn)).
    + by rewrite list_insert_insert_eq.
    + by rewrite <- app_assoc.
    + by rewrite list_lookup_insert_ne.
    + by rewrite list_lookup_insert_ne.
    + by rewrite list_lookup_insert_ne.
    + by rewrite list_lookup_insert_ne.
    + apply list_lookup_insert_eq. by eapply lookup_lt_Some.
Qed.

(** A key of [PHYSICS_SIMULATOR] holding a leaf: line 42. *)
Lemma copy_key_leaf (h : heap) k a sn :
  h !! c = Some cn → h !! p = Some pn → h !! s = Some sn →
  dict_get k pn = Some (VLeaf a) →
  copy_key (VNode c) k h = (<[s := dict_set k (VLeaf a) sn]> h, Ok ()).
Proof.
  intros Hc Hp Hs Hk. unfold copy_key.
  rewrite (run_bind _ _ h h (VNode p)) by by eapply run_getattr.
  rewrite (run_bind _ _ h h (VLeaf a)) by by eapply run_subscript.
  cbn [isinstance_Config].
  rewrite (run_bind _ _ h h (VNode p)) by by eapply run_getattr.
  rewrite (run_bind _ _ h h (VLeaf a)) by by eapply run_subscript.
  rewrite (run_bind _ _ h h (VNode s)) by by eapply run_getattr.
  by apply run_store.
Qed.

(** A key holding a nested section, present as a section in [SIMULATOR]. *)
Lemma copy_key_node (h : heap) k q qn t tn sn :
  h !! c = Some cn → h !! p = Some pn → h !! s = Some sn →
  dict_get k pn = Some (VNode q) → h !! q = Some qn → wf_dict qn →
  dict_get k sn = Some (VNode t) → h !! t = Some tn →
  t ≠ c → t ≠ p → t ≠ s → t ≠ q →
  copy_key (VNode c) k h = (<[t := copy_fields qn tn]> h, Ok ()).
Proof.
  intros Hc Hp Hs Hk Hq Hwf Hsk Ht Htc Htp Hts Htq. unfold copy_key.
  rewrite (run_bind _ _ h h (VNode p)) by by eapply run_getattr.
  rewrite (run_bind _ _ h h (VNode q)) by by eapply run_subscript.
  cbn [isinstance_Config].
  rewrite (run_bind _ _ h h (VNode p)) by by eapply run_getattr.
  rewrite (run_bind _ _ h h (VNode q)) by by eapply run_subscript.
  unfold for_in_keys. rewrite (run_bind _ _ h h qn) by by apply run_deref.
  by eapply (inner_loop_run k q qn t sn) with (done := []).
Qed.

(** A key holding an empty nested section: the inner loop has no turn, so
    [SIMULATOR] is not even looked at. *)
Lemma copy_key_empty (h : heap) k q :
  h !! c = Some cn → h !! p = Some pn →
  dict_get k pn = Some (VNode q) → h !! q = Some [] →
  copy_key (VNode c) k h = (h, Ok ()).
Proof.
  intros Hc Hp Hk Hq. unfold copy_key.
  rewrite (run_bind _ _ h h (VNode p)) by by eapply run_getattr.
  rewrite (run_bind _ _ h h (VNode q)) by by eapply run_subscript.
  cbn [isinstance_Config].
  rewrite (run_bind _ _ h h (VNode p)) by by eapply run_getattr.
  rewrite (run_bind _ _ h h (VNode q)) by by eapply run_subscript.
  unfold for_in_keys. rewrite (run_bind _ _ h h []) by by apply run_deref.
  by apply (run_iterate_nil h q []).
Qed.

(** A key holding a nested section with a field, absent from [SIMULATOR]:
    the first assignment of the inner loop fails on [SIMULATOR[k]]. *)
Lemma copy_key_missing (h : heap) k q qn sn :
  h !! c = Some cn → h !! p = Some pn → h !! s = Some sn →
  dict_get k pn = Some (VNode q) → h !! q = Some qn → qn ≠ [] →
  dict_get k sn = None →
  copy_key (VNode c) k h = (h, Raise (KeyError k)).
Proof.
  intros Hc Hp Hs Hk Hq Hne Hsk. unfold copy_key.
  rewrite (run_bind _ _ h h (VNode p)) by by eapply run_getattr.
  rewrite (run_bind _ _ h h (VNode q)) by by eapply run_subscript.
  cbn [isinstance_Config].
  rewrite (run_bind _ _ h h (VNode p)) by by eapply run_getattr.
  rewrite (run_bind _ _ h h (VNode q)) by by eapply run_subscript.
  unfold for_in_keys. rewrite (run_bind _ _ h h qn) by by apply run_deref.
  destruct qn as [|[ik iv] qn']; [done|].
  unfold dict_keys. rewrite fmap_cons. cbn [fst].
  rewrite run_iterate_cons by done.
  apply run_bind_raise. eapply copy_field_missing; try done.
  cbn [dict_get]. by rewrite String.eqb_refl.
Qed.
End CopyKey.

Lemma dict_get_app {V : Type} k (d1 d2 : dict V) :
  dict_get k (d1 ++ d2)
  = match dict_get k d1 with
    | Some v => Some v
    | None => dict_get k d2
    end.
Proof.
  induction d1 as [|[k' v'] d1 IH]; [done|]. cbn [app dict_get].
  by destruct (String.eqb k k').
Qed.

Lemma dict_get_middle {V : Type} k (v : V) (d1 d2 : dict V) :
  wf_dict (d1 ++ (k, v) :: d2) →
  dict_get k d1 = None ∧ dict_get k (d1 ++ (k, v) :: d2) = Some v.
Proof.
  intros Hwf.
  assert (dict_get k (d1 ++ (k, v) :: d2) = Some v) as Hget.
  { apply elem_of_dict_get; [done|].
    apply elem_of_app. right. apply list_elem_of_here. }
  split; [|done]. apply dict_get_None. unfold wf_dict, dict_keys in *.
  rewrite fmap_app, fmap_cons in Hwf. apply NoDup_app in Hwf as (_ & Hdisj & _).
  intros Hin. apply (Hdisj _ Hin). apply list_elem_of_here.
Qed.

(** * The overlay loop *)

Section Overlay.
Context {h : heap} {c s p : loc} {cn sn pn : dict value}.
Hypothesis L : layout h c s p cn sn pn.

Lemma merged_upto_start : merged_upto h s sn [] h.
Proof.
  split_and!; [done | |].
  - exists sn. split; [apply L | done].
  - intros k t Hk. destruct (lay_child _ _ _ _ _ _ _ L k t Hk) as [[tn Ht] _].
    by exists tn, tn.
Qed.

(** What the loop body reads is where the call found it. *)
Lemma merged_upto_reads done h1 :
  merged_upto h s sn done h1 →
  h1 !! c = Some cn ∧ h1 !! p = Some pn
  ∧ ∀ k q, dict_get k pn = Some (VNode q) → h1 !! q = h !! q.
Proof.
  intros (Hframe & _ & _). split_and!.
  - rewrite Hframe; [apply L | apply L |].
    intros k Hk. by destruct (lay_child _ _ _ _ _ _ _ L k c Hk) as (_ & ? & _).
  - rewrite Hframe; [apply L | apply L |].
    intros k Hk.
    by destruct (lay_child _ _ _ _ _ _ _ L k p Hk) as (_ & _ & ? & _).
  - intros k q Hq. apply Hframe.
    + by destruct (lay_sub _ _ _ _ _ _ _ L k q Hq).
    + intros k' Hk'.
      destruct (lay_child _ _ _ _ _ _ _ L k' q Hk') as (_ & _ & _ & _ & Hne).
      by apply (Hne k q).
Qed.

Lemma dict_get_snoc_done (done : dict value) k v k' :
  dict_get k done = None →
  dict_get k' (done ++ [(k, v)])
  = if String.eqb k' k then Some v else dict_get k' done.
Proof.
  intros Hfresh. rewrite dict_get_app. cbn [dict_get].
  destruct (String.eqb_spec k' k) as [->|]; [by rewrite Hfresh|].
  by destruct (dict_get k' done).
Qed.

(** One turn of the outer loop keeps the description of the store. *)
Lemma merged_upto_step done k v rest h1 :
  pn = done ++ (k, v) :: rest →
  merged_upto h s sn done h1 →
  copyable h sn (k, v) →
  ∃ h2, copy_key (VNode c) k h1 = (h2, Ok ())
        ∧ merged_upto h s sn (done ++ [(k, v)]) h2.
Proof.
  intros Hpn Hinv Hok. unfold copyable in Hok. cbn [fst snd] in Hok.
  pose proof (lay_sim_attr _ _ _ _ _ _ _ L) as Hsim.
  pose proof (lay_phys_attr _ _ _ _ _ _ _ L) as Hphys.
  destruct (dict_get_middle k v done rest) as [Hfresh Hk];
    [rewrite <- Hpn; apply L|]. rewrite <- Hpn in Hk.
  destruct (merged_upto_reads _ _ Hinv) as (Hc & Hp & Hsub).
  destruct Hinv as (Hframe & (sn1 & Hs1 & Hsn1) & Hchild).
  assert (dict_get k sn1 = dict_get k sn) as Hsk by by rewrite Hsn1, Hfresh.
  assert (∀ k', dict_get k' sn1
                = match dict_get k' (done ++ [(k, v)]) with
                  | Some (VLeaf a) => Some (VLeaf a)
                  | _ => dict_get k' sn
                  end ∨ (k' = k ∧ ∃ a, v = VLeaf a)) as Hsn2.
  { intros k'. rewrite dict_get_snoc_done by done.
    destruct (String.eqb_spec k' k) as [->|]; [|left; apply Hsn1].
    destruct v; [right; eauto | left; by rewrite Hsk]. }
  assert (∀ k0 t0, dict_get k0 sn = Some (VNode t0) → t0 ≠ s) as Hchild_s.
  { intros k0 t0 Hk0.
    by destruct (lay_child _ _ _ _ _ _ _ L k0 t0 Hk0) as (_ & _ & _ & ? & _). }
  destruct v as [a|q].
  - exists (<[s := dict_set k (VLeaf a) sn1]> h1). split.
    { by eapply copy_key_leaf with (p := p); eauto. }
    split_and!.
    + intros l Hl Hnc. rewrite list_lookup_insert_ne by done. by apply Hframe.
    + exists (dict_set k (VLeaf a) sn1). split.
      { apply list_lookup_insert_eq. by eapply lookup_lt_Some. }
      intros k'. rewrite dict_get_snoc_done by done.
      destruct (String.eqb_spec k' k) as [->|Hne].
      * by rewrite dict_get_set_eq.
      * rewrite dict_get_set_ne by done. apply Hsn1.
    + intros k0 t0 Hk0.
      destruct (Hchild k0 t0 Hk0) as (tn & tn1 & Ht & Ht1 & Hget).
      exists tn, tn1. split_and!; [done | |].
      * rewrite list_lookup_insert_ne; [done|]. intros Heq.
        by apply (Hchild_s k0 t0).
      * intros ik. rewrite Hget, dict_get_snoc_done by done.
        destruct (String.eqb_spec k0 k) as [->|]; [by rewrite Hfresh|done].
  - destruct (lay_sub _ _ _ _ _ _ _ L k q Hk) as (Hqs & qn & Hq & Hwfq).
    assert (h1 !! q = Some qn) as Hq1 by by rewrite (Hsub k q Hk).
    assert (∀ k', dict_get k' sn1
                  = match dict_get k' (done ++ [(k, VNode q)]) with
                    | Some (VLeaf a) => Some (VLeaf a)
                    | _ => dict_get k' sn
                    end) as Hsn3.
    { intros k'. destruct (Hsn2 k') as [?|(_ & a & ?)]; done. }
    destruct (Hok q eq_refl) as [Hempty | [t Ht]].
    + rewrite Hq in Hempty. injection Hempty as ->.
      exists h1. split; [by eapply copy_key_empty; eauto|].
      split_and!; [done | by exists sn1 |].
      intros k0 t0 Hk0.
      destruct (Hchild k0 t0 Hk0) as (tn & tn1 & Ht & Ht1 & Hget).
      exists tn, tn1. split_and!; [done..|].
      intros ik. rewrite Hget, dict_get_snoc_done by done.
      destruct (String.eqb_spec k0 k) as [->|]; [|done].
      by rewrite Hfresh, Hq.
    + destruct (Hchild k t Ht) as (tn & tn1 & Htn & Htn1 & Hget1).
      destruct (lay_child _ _ _ _ _ _ _ L k t Ht)
        as (_ & Htc & Htp & Hts & Htq).
      exists (<[t := copy_fields qn tn1]> h1). split.
      { eapply copy_key_node
          with (s := s) (p := p) (q := q) (qn := qn) (t := t) (tn := tn1)
               (sn := sn1); eauto; first [by rewrite Hsk | by apply (Htq k q)]. }
      split_and!.
      * intros l Hl Hnc. rewrite list_lookup_insert_ne; [by apply Hframe|].
        intros ->. by apply (Hnc k).
      * exists sn1. split; [by rewrite list_lookup_insert_ne|done].
      * intros k0 t0 Hk0. destruct (decide (t0 = t)) as [->|Hne].
        -- assert (k0 = k) as -> by by eapply (lay_child_inj _ _ _ _ _ _ _ L).
           exists tn, (copy_fields qn tn1). split_and!; [done | |].
           { apply list_lookup_insert_eq. by eapply lookup_lt_Some. }
           intros ik. unfold copy_fields.
           rewrite (fold_set_get (λ _ v, v)) by done.
           rewrite dict_get_snoc_done, String.eqb_refl, Hq by done.
           cbn [mbind option_bind]. rewrite Hget1, Hfresh. done.
        -- destruct (Hchild k0 t0 Hk0) as (tn0 & tn01 & Ht0 & Ht01 & Hget0).
           exists tn0, tn01. split_and!; [done | |].
           { by rewrite list_lookup_insert_ne. }
           intros ik. rewrite Hget0, dict_get_snoc_done by done.
           destruct (String.eqb_spec k0 k) as [->|]; [congruence|done].
Qed.

(** The loop over the keys of [PHYSICS_SIMULATOR], for as long as the entries
    can be copied. *)
Lemma overlay_loop_prefix todo :
  ∀ done h1 rest,
    pn = done ++ todo ++ rest →
    merged_upto h s sn done h1 →
    Forall (copyable h sn) todo →
    ∃ h2, merged_upto h s sn (done ++ todo) h2
          ∧ iterate p (length pn) (dict_keys (todo ++ rest))
              (copy_key (VNode c)) h1
            = iterate p (length pn) (dict_keys rest) (copy_key (VNode c)) h2.
Proof.
  induction todo as [|[k v] todo IH]; intros done h1 rest Hpn Hinv Hok.
  - exists h1. by rewrite app_nil_r.
  - apply Forall_cons in Hok as [Hkv Hok].
    destruct (merged_upto_reads _ _ Hinv) as (_ & Hp & _).
    destruct (merged_upto_step done k v (todo ++ rest) h1 Hpn Hinv Hkv)
      as (h2 & Hrun & Hinv2).
    destruct (IH (done ++ [(k, v)]) h2 rest) as (h3 & Hinv3 & Hloop);
      [by rewrite <- app_assoc | done | done |].
    exists h3. rewrite <- app_assoc in Hinv3. split; [done|].
    rewrite <- Hloop. unfold dict_keys. cbn [app]. rewrite fmap_cons. cbn [fst].
    rewrite run_iterate_cons by done.
    by rewrite (run_bind _ _ h1 h2 ()).
Qed.

(** When every entry can be copied the call ends after the loop, with the
    import check. *)
Lemma overwrite_simulator_config_run physics_importable :
  Forall (copyable h sn) pn →
  ∃ h', merged_upto h s sn pn h'
        ∧ overwrite_simulator_config physics_importable (VNode c) h
          = (h', if physics_importable then Ok () else Raise ImportError).
Proof.
  intros Hok.
  destruct (overlay_loop_prefix pn [] h []) as (h' & Hinv & Hloop);
    [by rewrite app_nil_r | apply merged_upto_start | done |].
  exists h'. split; [done|]. rewrite app_nil_r in Hloop.
  destruct (merged_upto_reads _ _ Hinv) as (_ & Hp & _).
  unfold overwrite_simulator_config.
  rewrite (run_bind _ _ h h (VNode p))
    by (eapply run_getattr; apply L).
  rewrite (run_bind _ _ h h' ()).
  - by destruct physics_importable.
  - unfold for_in_keys.
    rewrite (run_bind _ _ h h pn) by (apply run_deref; apply L).
    rewrite Hloop. by apply run_iterate_nil.
Qed.

(** When the first entry that cannot be copied is a section with a field and
    [SIMULATOR] has nothing under its key, the call ends there. *)
Lemma overwrite_simulator_config_stops physics_importable done k q qn rest :
  pn = done ++ (k, VNode q) :: rest →
  Forall (copyable h sn) done →
  h !! q = Some qn → qn ≠ [] → dict_get k sn = None →
  ∃ h', merged_upto h s sn done h'
        ∧ overwrite_simulator_config physics_importable (VNode c) h
          = (h', Raise (KeyError k)).
Proof.
  intros Hpn Hok Hq Hne Hmiss.
  destruct (overlay_loop_prefix done [] h ((k, VNode q) :: rest))
    as (h' & Hinv & Hloop); [done | apply merged_upto_start | done |].
  cbn [app] in Hinv, Hloop. exists h'. split; [done|].
  destruct (dict_get_middle k (VNode q) done rest) as [Hfresh Hk];
    [rewrite <- Hpn; apply L|]. rewrite <- Hpn in Hk.
  destruct (merged_upto_reads _ _ Hinv) as (Hc & Hp & Hsub).
  destruct Hinv as (_ & (sn1 & Hs1 & Hsn1) & _).
  unfold overwrite_simulator_config.
  rewrite (run_bind _ _ h h (VNode p))
    by (eapply run_getattr; apply L).
  apply run_bind_raise. unfold for_in_keys.
  rewrite (run_bind _ _ h h pn) by (apply run_deref; apply L).
  rewrite Hpn at 2. rewrite Hloop. unfold dict_keys. rewrite fmap_cons.
  cbn [fst]. rewrite run_iterate_cons by done.
  apply run_bind_raise.
  eapply copy_key_missing with (s := s) (p := p) (q := q) (qn := qn) (sn := sn1);
    eauto; try apply L.
  - by rewrite (Hsub k q Hk).
  - by rewrite Hsn1, Hfresh.
Qed.
End Overlay.

(** * Hierarchical configurations *)

Lemma mapM_split {A B : Type} (f : A → option B) xs bs xs1 x xs2 :
  mapM f xs = Some bs → xs = xs1 ++ x :: xs2 →
  ∃ bs1 b bs2,
    bs = bs1 ++ b :: bs2 ∧ f x = Some b
    ∧ Forall2 (λ x y, f x = Some y) xs1 bs1
    ∧ Forall2 (λ x y, f x = Some y) xs2 bs2.
Proof.
  intros Hbs%mapM_Some_1 ->.
  apply Forall2_app_inv_l in Hbs as (bs1 & bs' & H1 & H2 & ->).
  apply Forall2_cons_inv_l in H2 as (b & bs2 & Hb & H2 & ->).
  by exists bs1, b, bs2.
Qed.

Lemma Forall2_Some_elem_of {A B : Type} (f : A → option B) xs bs x :
  Forall2 (λ x y, f x = Some y) xs bs → x ∈ xs →
  ∃ b, f x = Some b ∧ b ∈ bs.
Proof.
  intros Hall (i & Hi)%list_elem_of_lookup.
  destruct (Forall2_lookup_l _ _ _ _ _ Hall Hi) as (b & Hb & Hfx).
  exists b. split; [done|]. by eapply list_elem_of_lookup_2.
Qed.

Lemma locs_of_node_inv d (h : heap) l ls :
  locs_of d h (VNode l) = Some ls →
  ∃ d' nd below,
    d = S d' ∧ h !! l = Some nd
    ∧ mapM (λ kv, locs_of d' h kv.2) nd = Some below
    ∧ ls = l :: mjoin below.
Proof.
  destruct d as [|d']; [done|]. cbn [locs_of].
  destruct (h !! l) as [nd|]; [|done]. cbn [mbind option_bind].
  destruct (mapM _ nd) as [below|] eqn:Hbelow; [|done].
  cbn [mbind option_bind]. intros [= ?]. subst ls. by exists d', nd, below.
Qed.

Section Fields.
Context (d : nat) (h : heap) (nd : dict value) (below : list (list loc)).
Hypothesis Hbelow : mapM (λ kv, locs_of d h kv.2) nd = Some below.
Hypothesis Hnodup : NoDup (mjoin below).

(** The objects under a field are among those under the node, along one
    path each. *)
Lemma field_locs k v :
  dict_get k nd = Some v →
  ∃ lv, locs_of d h v = Some lv ∧ NoDup lv ∧ ∀ x, x ∈ lv → x ∈ mjoin below.
Proof.
  intros (nd1 & nd2 & Hnd)%dict_get_elem_of%list_elem_of_split.
  destruct (mapM_split _ _ _ _ _ _ Hbelow Hnd)
    as (bs1 & lv & bs2 & -> & Hlv & _ & _).
  exists lv. split; [done|]. rewrite join_app in *. cbn [mjoin list_join] in *.
  apply NoDup_app in Hnodup as (_ & _ & [? _]%NoDup_app).
  split; [done|]. intros x Hx. rewrite !elem_of_app. auto.
Qed.

(** Two fields share no object. *)
Lemma field_locs_disjoint k k' v v' lv lv' x :
  k ≠ k' →
  dict_get k nd = Some v → dict_get k' nd = Some v' →
  locs_of d h v = Some lv → locs_of d h v' = Some lv' →
  x ∈ lv → x ∉ lv'.
Proof.
  intros Hne (nd1 & nd2 & Hnd)%dict_get_elem_of%list_elem_of_split
    Hin'%dict_get_elem_of Hlv Hlv' Hx Hx'.
  destruct (mapM_split _ _ _ _ _ _ Hbelow Hnd)
    as (bs1 & lv0 & bs2 & -> & Hlv0 & Hall1 & Hall2).
  cbn [snd] in Hlv0. assert (lv0 = lv) as -> by congruence.
  rewrite join_app in Hnodup. cbn [mjoin list_join] in Hnodup.
  apply NoDup_app in Hnodup as (_ & Hdisj1 & (_ & Hdisj2 & _)%NoDup_app).
  rewrite Hnd in Hin'.
  apply elem_of_app in Hin' as [Hin'|[[= ? _]|Hin']%elem_of_cons]; [|done|].
  - destruct (Forall2_Some_elem_of _ _ _ _ Hall1 Hin') as (b & Hb & Hbin).
    cbn [snd] in Hb. assert (b = lv') as -> by congruence.
    apply (Hdisj1 x); [|apply elem_of_app; auto].
    apply list_elem_of_join. eauto.
  - destruct (Forall2_Some_elem_of _ _ _ _ Hall2 Hin') as (b & Hb & Hbin).
    cbn [snd] in Hb. assert (b = lv') as -> by congruence.
    apply (Hdisj2 x Hx). apply list_elem_of_join. eauto.
Qed.
End Fields.

Lemma field_node_locs d (h : heap) nd below k t :
  mapM (λ kv, locs_of d h kv.2) nd = Some below → NoDup (mjoin below) →
  dict_get k nd = Some (VNode t) →
  t ∈ mjoin below ∧ is_Some (h !! t).
Proof.
  intros Hbelow Hnodup Hk.
  destruct (field_locs d h nd below Hbelow Hnodup k _ Hk)
    as (lt & Hlt & _ & Hsub).
  destruct (locs_of_node_inv _ _ _ _ Hlt) as (? & tn & ? & _ & Ht & _ & ->).
  split; [apply Hsub, list_elem_of_here | eauto].
Qed.

Lemma field_node_inj d (h : heap) nd below k k' t :
  mapM (λ kv, locs_of d h kv.2) nd = Some below → NoDup (mjoin below) →
  dict_get k nd = Some (VNode t) → dict_get k' nd = Some (VNode t) → k = k'.
Proof.
  intros Hbelow Hnodup Hk Hk'. destruct (decide (k = k')) as [|Hne]; [done|].
  destruct (field_locs d h nd below Hbelow Hnodup k _ Hk)
    as (lt & Hlt & _ & _).
  destruct (locs_of_node_inv _ _ _ _ Hlt) as (? & ? & ? & _ & _ & _ & ->).
  destruct (field_locs_disjoint d h nd below Hbelow Hnodup k k' _ _ _ _ t
              Hne Hk Hk' Hlt Hlt); apply list_elem_of_here.
Qed.

(** In a hierarchical configuration the sections lie as the overlay needs
    them, and nothing under [PHYSICS_SIMULATOR] is [SIMULATOR] or one of its
    sections. *)
Lemma hierarchical_layout (h : heap) c cn s p :
  wf_heap h → hierarchical h (VNode c) → h !! c = Some cn →
  dict_get "SIMULATOR" cn = Some (VNode s) →
  dict_get "PHYSICS_SIMULATOR" cn = Some (VNode p) →
  ∃ sn pn d lp,
    layout h c s p cn sn pn
    ∧ locs_of d h (VNode p) = Some lp
    ∧ ∀ x, x ∈ lp → x ≠ s ∧ ∀ k, dict_get k sn ≠ Some (VNode x).
Proof.
  intros Hwf (D & lc & Hlc & Hnd) Hc HS HP.
  destruct (locs_of_node_inv _ _ _ _ Hlc)
    as (d & cn' & below & -> & Hc' & Hbelow & ->).
  assert (cn' = cn) as -> by congruence.
  apply NoDup_cons in Hnd as [Hc_out Hnd].
  destruct (field_locs d h cn below Hbelow Hnd _ _ HS)
    as (ls & Hls & Hnd_s & Hsub_s).
  destruct (field_locs d h cn below Hbelow Hnd _ _ HP)
    as (lp & Hlp & Hnd_p & Hsub_p).
  assert (∀ x, x ∈ ls → x ∉ lp) as Hdisj.
  { intros x. by eapply (field_locs_disjoint d h cn below Hbelow Hnd
                           "SIMULATOR" "PHYSICS_SIMULATOR"). }
  destruct (locs_of_node_inv _ _ _ _ Hls)
    as (d1 & sn & below_s & -> & Hs & Hbelow_s & ->).
  destruct (locs_of_node_inv _ _ _ _ Hlp)
    as (d2 & pn & below_p & [= <-] & Hp & Hbelow_p & ->).
  apply NoDup_cons in Hnd_s as [Hs_out Hnd_s].
  apply NoDup_cons in Hnd_p as [Hp_out Hnd_p].
  assert (∀ k t, dict_get k sn = Some (VNode t) →
            t ∈ mjoin below_s ∧ is_Some (h !! t)) as Hchild.
  { intros k t. by apply (field_node_locs d1). }
  assert (∀ k q, dict_get k pn = Some (VNode q) →
            q ∈ mjoin below_p ∧ is_Some (h !! q)) as Hsub.
  { intros k q. by apply (field_node_locs d1). }
  assert (∀ x, x ∈ p :: mjoin below_p →
            x ≠ s ∧ ∀ k, dict_get k sn ≠ Some (VNode x)) as Hfar.
  { intros x Hx. split.
    - intros ->. by apply (Hdisj s); [apply list_elem_of_here|].
    - intros k [Hin _]%Hchild. by apply (Hdisj x); [apply elem_of_cons; auto|]. }
  exists sn, pn, (S d1), (p :: mjoin below_p). split_and!; [|done|done].
  split; try done.
  - eapply Forall_lookup_1 in Hwf; done.
  - intros ->. apply Hc_out, Hsub_s, list_elem_of_here.
  - by apply Hfar, list_elem_of_here.
  - intros k q Hq. destruct (Hsub k q Hq) as [Hin [qn Hqn]]. split.
    + by apply Hfar, elem_of_cons; auto.
    + exists qn. split; [done|]. eapply Forall_lookup_1 in Hwf; done.
  - intros k t Ht. destruct (Hchild k t Ht) as [Hin Halloc].
    assert (t ∈ s :: mjoin below_s) as Hin' by (apply elem_of_cons; auto).
    split_and!; [done | | | |].
    + intros ->. by apply Hc_out, Hsub_s.
    + intros ->. by apply (Hdisj p); [|apply list_elem_of_here].
    + by intros ->.
    + intros k' q [Hq _]%Hsub ->.
      by apply (Hdisj q); [|apply elem_of_cons; auto].
  - intros k k' t. by apply (field_node_inj d1 h sn below_s).
Qed.

(** * Every run leaves the rest of the store alone *)

Lemma copy_key_not_section (c s p : loc) (cn pn : dict value)
    (h : heap) k q qn sn a :
  dict_get "SIMULATOR" cn = Some (VNode s) →
  dict_get "PHYSICS_SIMULATOR" cn = Some (VNode p) →
  h !! c = Some cn → h !! p = Some pn → h !! s = Some sn →
  dict_get k pn = Some (VNode q) → h !! q = Some qn → qn ≠ [] →
  dict_get k sn = Some (VLeaf a) →
  copy_key (VNode c) k h = (h, Raise TypeError).
Proof.
  intros Hsim Hphys Hc Hp Hs Hk Hq Hne Hsk. unfold copy_key.
  rewrite (run_bind _ _ h h (VNode p)) by by eapply run_getattr.
  rewrite (run_bind _ _ h h (VNode q)) by by eapply run_subscript.
  cbn [isinstance_Config].
  rewrite (run_bind _ _ h h (VNode p)) by by eapply run_getattr.
  rewrite (run_bind _ _ h h (VNode q)) by by eapply run_subscript.
  unfold for_in_keys. rewrite (run_bind _ _ h h qn) by by apply run_deref.
  destruct qn as [|[ik iv] qn']; [done|].
  unfold dict_keys. rewrite fmap_cons. cbn [fst].
  rewrite run_iterate_cons by done.
  apply run_bind_raise. unfold copy_field.
  rewrite (run_bind _ _ h h (VNode p)) by by eapply run_getattr.
  rewrite (run_bind _ _ h h (VNode q)) by by eapply run_subscript.
  rewrite (run_bind _ _ h h iv).
  2:{ eapply run_subscript; [done|]. cbn [dict_get]. by rewrite String.eqb_refl. }
  rewrite (run_bind _ _ h h (VNode s)) by by eapply run_getattr.
  by rewrite (run_bind _ _ h h (VLeaf a)) by by eapply run_subscript.
Qed.

Section AnyRun.
Context {h : heap} {c s p : loc} {cn sn pn : dict value}.
Hypothesis L : layout h c s p cn sn pn.

Lemma overlay_loop_any todo :
  ∀ done h1,
    pn = done ++ todo →
    merged_upto h s sn done h1 →
    ∃ done' h2 r,
      iterate p (length pn) (dict_keys todo) (copy_key (VNode c)) h1 = (h2, r)
      ∧ merged_upto h s sn done' h2
      ∧ (r = Ok () → Forall (copyable h sn) todo).
Proof.
  pose proof (lay_sim_attr _ _ _ _ _ _ _ L) as Hsim.
  pose proof (lay_phys_attr _ _ _ _ _ _ _ L) as Hphys.
  induction todo as [|[k v] todo IH]; intros done h1 Hpn Hinv;
    destruct (merged_upto_reads L _ _ Hinv) as (Hc & Hp & Hsub).
  { exists done, h1, (Ok ()). split_and!; [by apply run_iterate_nil|done..]. }
  unfold dict_keys. rewrite fmap_cons. cbn [fst].
  rewrite run_iterate_cons by done.
  assert (copyable h sn (k, v) → ∃ done' h2 r,
            (copy_key (VNode c) k;;
             iterate p (length pn) todo.*1 (copy_key (VNode c))) h1 = (h2, r)
            ∧ merged_upto h s sn done' h2
            ∧ (r = Ok () → Forall (copyable h sn) ((k, v) :: todo))) as Hgo.
  { intros Hok.
    destruct (merged_upto_step L done k v todo h1 Hpn Hinv Hok)
      as (h2 & Hrun & Hinv2).
    destruct (IH (done ++ [(k, v)]) h2)
      as (done' & h3 & r & Hloop & Hinv3 & Hall);
      [by rewrite <- app_assoc | done |].
    exists done', h3, r. split_and!; [|done|].
    - by rewrite (run_bind _ _ h1 h2 ()).
    - intros Hr. apply Forall_cons_2; auto. }
  destruct v as [a|q]; [apply Hgo; by intros ? [=]|].
  destruct (dict_get_middle k (VNode q) done todo) as [Hfresh Hk];
    [rewrite <- Hpn; apply L|]. rewrite <- Hpn in Hk.
  destruct (lay_sub _ _ _ _ _ _ _ L k q Hk) as (_ & qn & Hq & _).
  destruct qn as [|entry qn]; [apply Hgo; intros ? [= <-]; by left|].
  destruct Hinv as (Hframe & (sn1 & Hs1 & Hsn1) & Hchild).
  assert (dict_get k sn1 = dict_get k sn) as Hsk by by rewrite Hsn1, Hfresh.
  assert (h1 !! q = Some (entry :: qn)) as Hq1 by by rewrite (Hsub k q Hk).
  destruct (dict_get k sn) as [[a|t]|] eqn:Hkn.
  - exists done, h1, (Raise TypeError).
    split_and!; [|by split_and!; eauto|done].
    apply run_bind_raise.
    by eapply copy_key_not_section with (s := s) (p := p) (sn := sn1).
  - apply Hgo. intros ? [= <-]. right. eauto.
  - exists done, h1, (Raise (KeyError k)).
    split_and!; [|by split_and!; eauto|done].
    apply run_bind_raise.
    by eapply copy_key_missing with (s := s) (p := p) (sn := sn1).
Qed.

Lemma overwrite_simulator_config_any physics_importable :
  ∃ done h' r,
    overwrite_simulator_config physics_importable (VNode c) h = (h', r)
    ∧ merged_upto h s sn done h'
    ∧ (r = Ok () → Forall (copyable h sn) pn).
Proof.
  destruct (overlay_loop_any pn [] h eq_refl (merged_upto_start L))
    as (done & h' & r & Hloop & Hinv & Hall).
  unfold overwrite_simulator_config.
  rewrite (run_bind _ _ h h (VNode p)) by (eapply run_getattr; apply L).
  assert (for_in_keys (VNode p) (copy_key (VNode c)) h = (h', r)) as Hfor.
  { unfold for_in_keys.
    by rewrite (run_bind _ _ h h pn) by (apply run_deref; apply L). }
  destruct r as [[]|e].
  - exists done, h', (if physics_importable then Ok () else Raise ImportError).
    split_and!; [|done|auto]. rewrite (run_bind _ _ h h' ()) by done.
    by destruct physics_importable.
  - exists done, h', (Raise e). split_and!; [|done..].
    by apply run_bind_raise.
Qed.
End AnyRun.

(** Reading a section gives the same nested mapping in two stores that
    agree on the objects of the section. *)
Lemma reify_frame (h h' : heap) n :
  ∀ d v ls,
    locs_of d h v = Some ls →
    (∀ x, x ∈ ls → h' !! x = h !! x) →
    reify n h' v = reify n h v.
Proof.
  induction n as [|n IH]; intros d v ls Hls Hsame; destruct v as [a|l];
    [done..|].
  destruct (locs_of_node_inv _ _ _ _ Hls)
    as (d' & nd & below & -> & Hl & Hbelow & ->).
  cbn [reify]. rewrite Hsame, Hl by apply list_elem_of_here.
  cbn [mbind option_bind].
  rewrite (Forall_mapM_ext _ (λ kv, t ← reify n h kv.2; Some (kv.1, t))); [done|].
  apply Forall_forall. intros kv Hkv.
  apply mapM_Some_1 in Hbelow.
  destruct (Forall2_Some_elem_of _ _ _ _ Hbelow Hkv) as (b & Hb & Hbin).
  rewrite (IH d' kv.2 b); [done | done |].
  intros x Hx. apply Hsame, elem_of_cons. right.
  apply list_elem_of_join. eauto.
Qed.

Section Copied.
Context {h : heap} {c s p : loc} {cn sn pn : dict value}.
Hypothesis L : layout h c s p cn sn pn.

(** The description of the store, read as the values that were copied. *)
Lemma merged_upto_copied done rest h1 :
  pn = done ++ rest →
  Forall (copyable h sn) done →
  merged_upto h s sn done h1 →
  copied_into h1 s done.
Proof.
  intros Hpn Hok Hinv k v Hk.
  assert (dict_get k pn = Some v) as Hkp by by rewrite Hpn, dict_get_app, Hk.
  destruct (merged_upto_reads L _ _ Hinv) as (_ & _ & Hsub).
  destruct Hinv as (_ & (sn1 & Hs1 & Hsn1) & Hchild).
  unfold field. destruct v as [a|q].
  - rewrite Hs1. cbn [mbind option_bind]. by rewrite Hsn1, Hk.
  - intros ik iv. rewrite (Hsub k q Hkp).
    destruct (h !! q) as [qn|] eqn:Hq; [|done]. cbn [mbind option_bind].
    intros Hik.
    assert (copyable h sn (k, VNode q)) as Hcopy.
    { eapply Forall_forall in Hok; [done|]. by apply dict_get_elem_of. }
    destruct (Hcopy q eq_refl) as [Hempty|[t Ht]].
    { rewrite Hq in Hempty. injection Hempty as ->. done. }
    cbn [fst] in Ht. exists t. rewrite Hs1. cbn [mbind option_bind].
    split; [by rewrite Hsn1, Hk|].
    destruct (Hchild k t Ht) as (tn & tn1 & _ & -> & Hget).
    cbn [mbind option_bind]. rewrite Hget, Hk, Hq. cbn [mbind option_bind].
    by rewrite Hik.
Qed.
End Copied.

(** * Properties of [overwrite_simulator_config] *)

Ltac solve_nodup := apply (bool_decide_unpack _); vm_compute; exact I.
Ltac solve_wf_heap :=
  repeat (apply Forall_cons_2; [unfold wf_dict; solve_nodup|]);
  apply Forall_nil_2.

(** C7 as stated fails: a configuration in which object 3 is a section of
    [SIMULATOR] and of [PHYSICS_SIMULATOR] at once is not hierarchical, and
    there the assignment made through [SIMULATOR.B] is read through
    [PHYSICS_SIMULATOR.C]: the call returns and [PHYSICS_SIMULATOR] reads
    otherwise than before. *)
Remark shared_section_is_written :
  locs_of 3 shared_section_heap (VNode 0) = Some [0; 1; 3; 5; 2; 4; 3]
  ∧ field shared_section_heap 0 "PHYSICS_SIMULATOR" = Some (VNode 2)
  ∧ reify 2 shared_section_heap (VNode 2)
    = Some (TNode [("B", TNode [("x", TLeaf (LInt 8))]);
                   ("C", TNode [("x", TLeaf (LInt 1))])])
  ∧ ∃ h',
      overwrite_simulator_config true (VNode 0) shared_section_heap
      = (h', Ok ())
      ∧ field h' 0 "PHYSICS_SIMULATOR" = Some (VNode 2)
      ∧ reify 2 h' (VNode 2)
        = Some (TNode [("B", TNode [("x", TLeaf (LInt 8))]);
                       ("C", TNode [("x", TLeaf (LInt 8))])])
      ∧ reify 2 h' (VNode 2) ≠ reify 2 shared_section_heap (VNode 2).
Proof.
  split_and!; [reflexivity..|]. eexists.
  split_and!; [reflexivity.. | discriminate].
Qed.

(** The import check comes after the loop and does not touch the store. *)
Lemma overwrite_store_independent physics_importable config (h : heap) :
  (overwrite_simulator_config physics_importable config h).1
  = (overwrite_simulator_config true config h).1.
Proof.
  unfold overwrite_simulator_config, mbind, py_bind.
  destruct (getattr config "PHYSICS_SIMULATOR" h) as [h0 [phys|e]]; [|done].
  destruct (for_in_keys phys (copy_key config) h0) as [h1 [[]|e]]; [|done].
  by destruct physics_importable.
Qed.

(** C7: on a hierarchical configuration that has both sections, whatever the
    outcome of the call, [config] still holds the same [PHYSICS_SIMULATOR]
    object, and that section reads after the call as it did before it, at
    every depth. *)
Theorem physics_section_unchanged physics_importable (h : heap) c cn s p h' r :
  wf_heap h → hierarchical h (VNode c) →
  h !! c = Some cn →
  dict_get "SIMULATOR" cn = Some (VNode s) →
  dict_get "PHYSICS_SIMULATOR" cn = Some (VNode p) →
  overwrite_simulator_config physics_importable (VNode c) h = (h', r) →
  field h' c "PHYSICS_SIMULATOR" = Some (VNode p)
  ∧ ∀ depth, reify depth h' (VNode p) = reify depth h (VNode p).
Proof.
  intros Hwf Hhier Hc Hsim Hphys Hrun.
  destruct (hierarchical_layout h c cn s p Hwf Hhier Hc Hsim Hphys)
    as (sn & pn & d & lp & L & Hlp & Hfar).
  destruct (overwrite_simulator_config_any L physics_importable)
    as (done & h2 & r2 & Hrun2 & Hinv & _).
  rewrite Hrun in Hrun2. injection Hrun2 as <- <-.
  destruct (merged_upto_reads L _ _ Hinv) as (Hc' & _ & _).
  destruct Hinv as (Hframe & _ & _). split.
  - unfold field. by rewrite Hc'.
  - intros depth. apply (reify_frame h h' depth d _ lp Hlp).
    intros x [Hxs Hxc]%Hfar. by apply Hframe.
Qed.

Lemma physics_section_unchanged_witness :
  field (overwrite_simulator_config false (VNode 0) example_heap).1 0
    "PHYSICS_SIMULATOR" = Some (VNode 2)
  ∧ ∀ depth,
      reify depth (overwrite_simulator_config false (VNode 0) example_heap).1
        (VNode 2)
      = reify depth example_heap (VNode 2).
Proof.
  apply (physics_section_unchanged false example_heap 0
           [("SIMULATOR", VNode 1); ("PHYSICS_SIMULATOR", VNode 2)] 1 2 _
           (overwrite_simulator_config false (VNode 0) example_heap).2).
  - unfold wf_heap, example_heap. solve_wf_heap.
  - exists 3, [0; 1; 3; 2; 4]. split; [reflexivity | solve_nodup].
  - reflexivity.
  - reflexivity.
  - reflexivity.
  - reflexivity.
Defined.

(** When every entry of [PHYSICS_SIMULATOR] can be copied the loop runs to
    its end, whatever the imports do afterwards, and [SIMULATOR] then holds
    every value of [PHYSICS_SIMULATOR]. *)
Lemma overlay_completes physics_importable (h : heap) c cn s p sn pn :
  wf_heap h → hierarchical h (VNode c) →
  h !! c = Some cn →
  dict_get "SIMULATOR" cn = Some (VNode s) →
  dict_get "PHYSICS_SIMULATOR" cn = Some (VNode p) →
  h !! s = Some sn → h !! p = Some pn →
  Forall (copyable h sn) pn →
  ∃ h',
    overwrite_simulator_config physics_importable (VNode c) h
    = (h', if physics_importable then Ok () else Raise ImportError)
    ∧ h' !! p = Some pn
    ∧ copied_into h' s pn.
Proof.
  intros Hwf Hhier Hc Hsim Hphys Hs Hp Hok.
  destruct (hierarchical_layout h c cn s p Hwf Hhier Hc Hsim Hphys)
    as (sn' & pn' & _ & _ & L & _).
  assert (sn' = sn) as -> by (pose proof (lay_sim _ _ _ _ _ _ _ L); congruence).
  assert (pn' = pn) as -> by (pose proof (lay_phys _ _ _ _ _ _ _ L); congruence).
  destruct (overwrite_simulator_config_run L physics_importable Hok)
    as (h' & Hinv & Hrun).
  exists h'. split_and!; [done | |].
  - by destruct (merged_upto_reads L _ _ Hinv) as (_ & ? & _).
  - apply (merged_upto_copied L pn []); [by rewrite app_nil_r | done | done].
Qed.

(** C8: when the loop runs to its end and the imports then fail, the call
    raises [ImportError] and leaves the store that the successful call
    leaves; nothing is rolled back.  On a hierarchical configuration that
    store has every value of [PHYSICS_SIMULATOR] in [SIMULATOR]. *)
Theorem import_failure_keeps_overlay config (h h' : heap) :
  overwrite_simulator_config true config h = (h', Ok ()) →
  overwrite_simulator_config false config h = (h', Raise ImportError)
  ∧ ∀ c cn s p pn,
      config = VNode c → wf_heap h → hierarchical h (VNode c) →
      h !! c = Some cn →
      dict_get "SIMULATOR" cn = Some (VNode s) →
      dict_get "PHYSICS_SIMULATOR" cn = Some (VNode p) →
      h !! p = Some pn →
      h' !! p = Some pn ∧ copied_into h' s pn.
Proof.
  intros Hrun. split.
  - revert Hrun. unfold overwrite_simulator_config, mbind, py_bind.
    destruct (getattr config "PHYSICS_SIMULATOR" h) as [h0 [phys|e]]; [|done].
    destruct (for_in_keys phys (copy_key config) h0) as [h1 [[]|e]]; [|done].
    by intros [= <-].
  - intros c cn s p pn -> Hwf Hhier Hc Hsim Hphys Hp.
    destruct (hierarchical_layout h c cn s p Hwf Hhier Hc Hsim Hphys)
      as (sn & pn' & _ & _ & L & _).
    assert (pn' = pn) as ->
      by (pose proof (lay_phys _ _ _ _ _ _ _ L); congruence).
    destruct (overwrite_simulator_config_any L true)
      as (done & h2 & r2 & Hrun2 & _ & Hall).
    rewrite Hrun in Hrun2. injection Hrun2 as <- <-.
    destruct (overlay_completes true h c cn s p sn pn) as (h2 & Hrun2 & ?);
      [done | done | done | done | done | apply L | done | auto |].
    rewrite Hrun in Hrun2. by injection Hrun2 as <-.
Qed.

Lemma import_failure_keeps_overlay_witness :
  overwrite_simulator_config false (VNode 0) example_heap
  = (example_heap_after, Raise ImportError)
  ∧ ∀ c cn s p pn,
      VNode 0 = VNode c → wf_heap example_heap →
      hierarchical example_heap (VNode c) →
      example_heap !! c = Some cn →
      dict_get "SIMULATOR" cn = Some (VNode s) →
      dict_get "PHYSICS_SIMULATOR" cn = Some (VNode p) →
      example_heap !! p = Some pn →
      example_heap_after !! p = Some pn ∧ copied_into example_heap_after s pn.
Proof.
  apply (import_failure_keeps_overlay (VNode 0) example_heap example_heap_after).
  reflexivity.
Defined.

Lemma overlay_completes_on_example :
  ∃ h',
    overwrite_simulator_config false (VNode 0) example_heap
    = (h', Raise ImportError)
    ∧ h' !! 2 = Some [("A", VLeaf (LInt 9)); ("B", VNode 4)]
    ∧ copied_into h' 1 [("A", VLeaf (LInt 9)); ("B", VNode 4)].
Proof.
  apply (overlay_completes false example_heap 0
           [("SIMULATOR", VNode 1); ("PHYSICS_SIMULATOR", VNode 2)] 1 2
           [("A", VLeaf (LInt 1)); ("B", VNode 3)]).
  - unfold wf_heap, example_heap. solve_wf_heap.
  - exists 3, [0; 1; 3; 2; 4]. split; [reflexivity | solve_nodup].
  - reflexivity.
  - reflexivity.
  - reflexivity.
  - reflexivity.
  - reflexivity.
  - apply Forall_cons_2; [by intros ? [=]|].
    apply Forall_cons_2; [|apply Forall_nil_2].
    intros ? [= <-]. right. exists 3. reflexivity.
Defined.

(** C10, as amended: when the first entry of [PHYSICS_SIMULATOR] that cannot
    be copied is a nested section with at least one field and [SIMULATOR]
    has no key of its name, the call raises [KeyError] for that key, whatever
    the imports would do; the entries before it have been copied and the
    section has not been created. *)
Theorem missing_section_raises_key_error physics_importable
    (h : heap) c cn s p sn pn done k q qn rest :
  wf_heap h → hierarchical h (VNode c) →
  h !! c = Some cn →
  dict_get "SIMULATOR" cn = Some (VNode s) →
  dict_get "PHYSICS_SIMULATOR" cn = Some (VNode p) →
  h !! s = Some sn → h !! p = Some pn →
  pn = done ++ (k, VNode q) :: rest →
  Forall (copyable h sn) done →
  h !! q = Some qn → qn ≠ [] →
  dict_get k sn = None →
  ∃ h',
    overwrite_simulator_config physics_importable (VNode c) h
    = (h', Raise (KeyError k))
    ∧ copied_into h' s done
    ∧ field h' s k = None.
Proof.
  intros Hwf Hhier Hc Hsim Hphys Hs Hp Hpn Hok Hq Hne Hmiss.
  destruct (hierarchical_layout h c cn s p Hwf Hhier Hc Hsim Hphys)
    as (sn' & pn' & _ & _ & L & _).
  assert (sn' = sn) as -> by (pose proof (lay_sim _ _ _ _ _ _ _ L); congruence).
  assert (pn' = pn) as -> by (pose proof (lay_phys _ _ _ _ _ _ _ L); congruence).
  destruct (overwrite_simulator_config_stops L physics_importable
              done k q qn rest Hpn Hok Hq Hne Hmiss) as (h' & Hinv & Hrun).
  exists h'. split_and!; [done | by eapply (merged_upto_copied L) |].
  destruct (dict_get_middle k (VNode q) done rest) as [Hfresh _];
    [rewrite <- Hpn; apply L|].
  destruct Hinv as (_ & (sn1 & Hs1 & Hsn1) & _).
  unfold field. rewrite Hs1. cbn [mbind option_bind].
  by rewrite Hsn1, Hfresh.
Qed.

Lemma missing_section_raises_key_error_witness :
  ∃ h',
    overwrite_simulator_config true (VNode 0) missing_section_heap
    = (h', Raise (KeyError "B"))
    ∧ copied_into h' 1 [("A", VLeaf (LInt 9))]
    ∧ field h' 1 "B" = None.
Proof.
  apply (missing_section_raises_key_error true missing_section_heap 0
           [("SIMULATOR", VNode 1); ("PHYSICS_SIMULATOR", VNode 2)] 1 2
           [("A", VLeaf (LInt 1))] [("A", VLeaf (LInt 9)); ("B", VNode 3)]
           [("A", VLeaf (LInt 9))] "B" 3 [("x", VLeaf (LInt 8))] []).
  - unfold wf_heap, missing_section_heap. solve_wf_heap.
  - exists 3, [0; 1; 2; 3]. split; [reflexivity | solve_nodup].
  - reflexivity.
  - reflexivity.
  - reflexivity.
  - reflexivity.
  - reflexivity.
  - reflexivity.
  - apply Forall_cons_2; [by intros ? [=] | apply Forall_nil_2].
  - reflexivity.
  - discriminate.
  - reflexivity.
Defined.

(** C10 as stated fails: an empty nested section of [PHYSICS_SIMULATOR] whose
    key [SIMULATOR] lacks makes no assignment, and the call returns. *)
Lemma empty_section_raises_nothing :
  field empty_section_heap 2 "HABITAT_SIM_V0" = Some (VNode 3)
  ∧ empty_section_heap !! 3 = Some []
  ∧ field empty_section_heap 1 "HABITAT_SIM_V0" = None
  ∧ overwrite_simulator_config true (VNode 0) empty_section_heap
    = (empty_section_heap, Ok ()).
Proof. by split_and!; vm_compute. Qed.

(** ** The overlay example of the specification *)

Lemma reify_leaf_inv n (h : heap) v a : reify n h v = Some (TLeaf a) → v = VLeaf a.
Proof.
  destruct v as [a'|l]; [by destruct n; intros [= ->]|].
  destruct n as [|n]; [done|]. cbn [reify].
  destruct (h !! l) as [nd|]; [|done]. cbn [mbind option_bind].
  by destruct (mapM _ nd).
Qed.

Lemma reify_node_inv n (h : heap) v fields :
  reify n h v = Some (TNode fields) →
  ∃ n' l nd,
    n = S n' ∧ v = VNode l ∧ h !! l = Some nd
    ∧ mapM (λ kv, t ← reify n' h kv.2; Some (kv.1, t)) nd = Some fields.
Proof.
  destruct v as [a|l]; [by destruct n|]. destruct n as [|n]; [done|].
  cbn [reify].
  destruct (h !! l) as [nd|] eqn:Hl; [|done]. cbn [mbind option_bind].
  destruct (mapM _ nd) as [fs|] eqn:Hfs; [|done]. cbn [mbind option_bind].
  intros [= ?]. subst fs. by exists n, l, nd.
Qed.

Lemma reify_fields_cons n (h : heap) (nd : dict value) k t rest :
  mapM (λ kv, t ← reify n h kv.2; Some (kv.1, t)) nd = Some ((k, t) :: rest) →
  ∃ v nd',
    nd = (k, v) :: nd' ∧ reify n h v = Some t
    ∧ mapM (λ kv, t ← reify n h kv.2; Some (kv.1, t)) nd' = Some rest.
Proof.
  intros Hall%mapM_Some_1.
  apply Forall2_cons_inv_r in Hall as ([k' v] & nd' & Hv & Hall & ->).
  cbn [fst snd] in Hv.
  destruct (reify n h v) as [t'|] eqn:Hr; cbn [mbind option_bind] in Hv;
    [|done].
  injection Hv as -> ->.
  exists v, nd'. split_and!; [done | done | by apply mapM_Some_2].
Qed.

Lemma reify_fields_nil n (h : heap) (nd : dict value) :
  mapM (λ kv, t ← reify n h kv.2; Some (kv.1, t)) nd = Some [] → nd = [].
Proof. intros Hall%mapM_Some_1. by apply Forall2_nil_inv_r in Hall. Qed.

(** C3: in a configuration whose [SIMULATOR] section reads
    [{"A": 1, "B": {"x": 1, "y": 2}}] and whose [PHYSICS_SIMULATOR] section
    reads [{"A": 9, "B": {"x": 8}}], the loop runs to its end; [config] then
    still holds the same object under [SIMULATOR], and that section reads
    [{"A": 9, "B": {"x": 8, "y": 2}}]: the leaf is replaced, the nested
    section is merged field by field, and its field [y] is kept. *)
Theorem overlay_example physics_importable (h : heap) c cn s p :
  h !! c = Some cn →
  dict_get "SIMULATOR" cn = Some (VNode s) →
  dict_get "PHYSICS_SIMULATOR" cn = Some (VNode p) →
  reify 2 h (VNode s)
  = Some (TNode [("A", TLeaf (LInt 1));
                 ("B", TNode [("x", TLeaf (LInt 1)); ("y", TLeaf (LInt 2))])]) →
  reify 2 h (VNode p)
  = Some (TNode [("A", TLeaf (LInt 9)); ("B", TNode [("x", TLeaf (LInt 8))])]) →
  ∃ h',
    overwrite_simulator_config physics_importable (VNode c) h
    = (h', if physics_importable then Ok () else Raise ImportError)
    ∧ field h' c "SIMULATOR" = Some (VNode s)
    ∧ reify 2 h' (VNode s)
      = Some (TNode [("A", TLeaf (LInt 9));
                     ("B", TNode [("x", TLeaf (LInt 8));
                                  ("y", TLeaf (LInt 2))])]).
Proof.
  intros Hc Hsim Hphys Hrs Hrp.
  (* the shape of the two sections *)
  apply reify_node_inv in Hrs as (? & ? & sn & [= <-] & [= <-] & Hs & Hsn).
  apply reify_fields_cons in Hsn as (? & ? & -> & ->%reify_leaf_inv & Hsn).
  apply reify_fields_cons in Hsn as (? & ? & -> & Ht & ->%reify_fields_nil).
  apply reify_node_inv in Ht as (? & t & tn & [= <-] & -> & Ht & Htn).
  apply reify_fields_cons in Htn as (? & ? & -> & ->%reify_leaf_inv & Htn).
  apply reify_fields_cons in Htn
    as (? & ? & -> & ->%reify_leaf_inv & ->%reify_fields_nil).
  apply reify_node_inv in Hrp as (? & ? & pn & [= <-] & [= <-] & Hp & Hpn).
  apply reify_fields_cons in Hpn as (? & ? & -> & ->%reify_leaf_inv & Hpn).
  apply reify_fields_cons in Hpn as (? & ? & -> & Hq & ->%reify_fields_nil).
  apply reify_node_inv in Hq as (? & q & qn & [= <-] & -> & Hq & Hqn).
  apply reify_fields_cons in Hqn
    as (? & ? & -> & ->%reify_leaf_inv & ->%reify_fields_nil).
  (* objects that read differently are different objects *)
  assert (c ≠ s) as Hcs.
  { intros ->. rewrite Hs in Hc. injection Hc as <-. by vm_compute in Hsim. }
  assert (t ≠ c) as Htc.
  { intros ->. rewrite Ht in Hc. injection Hc as <-. by vm_compute in Hsim. }
  assert (p ≠ s) as Hps by (intros ->; congruence).
  assert (q ≠ s) as Hqs by (intros ->; congruence).
  assert (t ≠ s) as Hts by (intros ->; congruence).
  assert (t ≠ p) as Htp by (intros ->; congruence).
  assert (t ≠ q) as Htq by (intros ->; congruence).
  (* the two turns of the loop *)
  set (h1 := <[s := [("A", VLeaf (LInt 9)); ("B", VNode t)]]> h).
  set (h2 := <[t := [("x", VLeaf (LInt 8)); ("y", VLeaf (LInt 2))]]> h1).
  assert (h1 !! s = Some [("A", VLeaf (LInt 9)); ("B", VNode t)]) as Hs1.
  { apply list_lookup_insert_eq. by eapply lookup_lt_Some. }
  assert (h2 !! t = Some [("x", VLeaf (LInt 8)); ("y", VLeaf (LInt 2))]) as Ht2.
  { apply list_lookup_insert_eq. unfold h1. rewrite length_insert.
    by eapply lookup_lt_Some. }
  exists h2. split; [|split].
  2:{ unfold field, h2, h1. rewrite !list_lookup_insert_ne by done.
      by rewrite Hc. }
  - unfold overwrite_simulator_config.
    rewrite (run_bind _ _ h h (VNode p)) by by eapply run_getattr.
    rewrite (run_bind _ _ h h2 ()); [by destruct physics_importable|].
    unfold for_in_keys. rewrite (run_bind _ _ h h _) by by apply run_deref.
    cbn [dict_keys fmap list_fmap fst].
    rewrite run_iterate_cons by done.
    rewrite (run_bind _ _ h h1 ())
      by by apply (copy_key_leaf c s p cn
                     [("A", VLeaf (LInt 9)); ("B", VNode q)]
                     Hsim Hphys h "A" (LInt 9)
                     [("A", VLeaf (LInt 1)); ("B", VNode t)]).
    rewrite run_iterate_cons by by (unfold h1; rewrite list_lookup_insert_ne).
    rewrite (run_bind _ _ h1 h2 ()).
    + apply run_iterate_nil. unfold h2, h1.
      by rewrite !list_lookup_insert_ne by done.
    + unfold h2.
      apply (copy_key_node c s p cn [("A", VLeaf (LInt 9)); ("B", VNode q)]
               Hsim Hphys h1 "B" q
               [("x", VLeaf (LInt 8))] t
               [("x", VLeaf (LInt 1)); ("y", VLeaf (LInt 2))]
               [("A", VLeaf (LInt 9)); ("B", VNode t)]);
        first [ done
              | by unfold h1; rewrite list_lookup_insert_ne
              | unfold wf_dict; solve_nodup ].
  - assert (h2 !! s = Some [("A", VLeaf (LInt 9)); ("B", VNode t)]) as Hs2.
    { unfold h2. by rewrite list_lookup_insert_ne. }
    cbn [reify]. rewrite Hs2.
    cbn [mbind option_bind mapM fst snd mret option_ret reify].
    rewrite Ht2. reflexivity.
Qed.

Lemma overlay_example_witness :
  ∃ h',
    overwrite_simulator_config true (VNode 0) example_heap = (h', Ok ())
    ∧ field h' 0 "SIMULATOR" = Some (VNode 1)
    ∧ reify 2 h' (VNode 1)
      = Some (TNode [("A", TLeaf (LInt 9));
                     ("B", TNode [("x", TLeaf (LInt 8));
                                  ("y", TLeaf (LInt 2))])]).
Proof.
  apply (overlay_example true example_heap 0
           [("SIMULATOR", VNode 1); ("PHYSICS_SIMULATOR", VNode 2)] 1 2).
  - reflexivity.
  - reflexivity.
  - reflexivity.
  - reflexivity.
  - reflexivity.
Defined.

(** * Properties of [extract_metrics] *)

Section ExtractClaims.
Context {num : Type} `{!Numeric num}.
Implicit Types (M R : dict (dict num)) (names : list string).

Lemma extract_loop_Ok_all items names new R e em :
  extract_loop items names new = Ok R → (e, em) ∈ items →
  ∃ d, metrics_comprehension em names [] = Ok d.
Proof.
  revert new. induction items as [|[e' em'] items IH]; intros new Hloop Hin.
  - by apply elem_of_nil in Hin.
  - cbn [extract_loop] in Hloop.
    destruct (metrics_comprehension em' names []) as [d|] eqn:Hd; [|done].
    cbn [mbind result_bind] in Hloop.
    apply elem_of_cons in Hin as [[= -> ->]|Hin]; [eauto|].
    by eapply IH.
Qed.

(** C4: when every episode of [M] has every requested name,
    [extract_metrics(M, names)] returns a collection with the episode
    identifiers of [M] in the same order; the entry of an episode has exactly
    the requested names as keys, each with the value it has in [M]. *)
Theorem extract_metrics_narrows M names :
  wf_collection M →
  (∀ e em n, (e, em) ∈ M → n ∈ names → is_Some (dict_get n em)) →
  ∃ R,
    extract_metrics M names = Ok R
    ∧ dict_keys R = dict_keys M
    ∧ ∀ e em, dict_get e M = Some em →
        ∃ d, dict_get e R = Some d
             ∧ wf_dict d
             ∧ (∀ n, n ∈ dict_keys d ↔ n ∈ names)
             ∧ (∀ n, n ∈ names → dict_get n d = dict_get n em).
Proof.
  intros [HwfM _] Hall. unfold extract_metrics.
  destruct (extract_loop_total M names [] Hall) as [R HR].
  exists R. split; [done|].
  destruct (extract_loop_Ok M names [] R HR) as (ds & -> & Hds); [done|].
  cbn [app].
  assert (length (dict_keys M) = length ds) as Hlen.
  { unfold dict_keys. rewrite length_fmap. by eapply Forall2_length. }
  assert (dict_keys (zip (dict_keys M) ds) = dict_keys M) as Hkeys.
  { unfold dict_keys at 1. apply fst_zip. lia. }
  split; [done|]. intros e em Hget.
  apply dict_get_elem_of, list_elem_of_lookup in Hget as [i Hi].
  destruct (Forall2_lookup_l _ _ _ _ _ Hds Hi) as (d & Hd & Hcomp).
  cbn [snd] in Hcomp. exists d.
  apply metrics_comprehension_Ok in Hcomp as (_ & Hd_get & Hd_wf).
  split_and!.
  - apply elem_of_dict_get; [unfold wf_dict; by rewrite Hkeys|].
    apply list_elem_of_lookup. exists i. apply lookup_zip_with_Some.
    exists e, d. split_and!; [done | | done].
    unfold dict_keys. by rewrite list_lookup_fmap, Hi.
  - apply Hd_wf, wf_dict_nil.
  - intros n. rewrite <- dict_get_is_Some, Hd_get.
    destruct (decide (n ∈ names)) as [Hn|Hn].
    + split; [done|]. intros _. apply (Hall e em n); [|done].
      by eapply list_elem_of_lookup_2.
    + split; [by intros []|done].
  - intros n Hn. by rewrite Hd_get, decide_True.
Qed.

(** C5: [extract_metrics(M, names)] raises [KeyError] exactly when some
    episode of [M] lacks a requested name; it raises nothing else, and the
    key it reports is a requested name. *)
Theorem extract_metrics_raises_iff M names :
  ((∃ n, extract_metrics M names = Raise (KeyError n))
   ↔ ∃ e em n, (e, em) ∈ M ∧ n ∈ names ∧ dict_get n em = None)
  ∧ ∀ err, extract_metrics M names = Raise err →
      ∃ n, err = KeyError n ∧ n ∈ names.
Proof.
  unfold extract_metrics.
  assert (∀ err, extract_loop M names [] = Raise err →
            ∃ e em n, err = KeyError n ∧ (e, em) ∈ M ∧ n ∈ names
                      ∧ dict_get n em = None) as Hraise.
  { intros err (e & em & Hin & Hcomp)%extract_loop_Raise.
    apply metrics_comprehension_Raise in Hcomp as (n & -> & Hn & Hnone).
    by exists e, em, n. }
  split; [split|].
  - intros [n (e & em & n' & _ & Hin & Hn & Hnone)%Hraise]. by exists e, em, n'.
  - intros (e & em & n & Hin & Hn & Hnone).
    destruct (extract_loop M names []) as [R|err] eqn:Hloop.
    + destruct (extract_loop_Ok_all M names [] R e em Hloop Hin) as [d Hd].
      apply metrics_comprehension_Ok in Hd as (Hall & _).
      destruct (Hall n Hn) as [v Hv]. congruence.
    + destruct (Hraise err eq_refl) as (_ & _ & n' & -> & _). eauto.
  - intros err (_ & _ & n & -> & _ & Hn & _)%Hraise. eauto.
Qed.
End ExtractClaims.

(** * The abstract operations *)

(** C9: on the base class each of [generate_video], [generate_map] and
    [evaluate_and_get_maps] raises [NotImplementedError], for all arguments
    and in every store, which it leaves as it is. *)
Theorem abstract_operations_not_implemented (self : HabitatSimEvaluator)
    (episode_id scene_id log_dir : string) (agent_seed map_height : Z)
    (args : list value) (kwargs : dict value) (h : heap) :
  generate_video self episode_id scene_id agent_seed args kwargs h
  = (h, Raise NotImplementedError)
  ∧ generate_map self episode_id scene_id agent_seed map_height args kwargs h
    = (h, Raise NotImplementedError)
  ∧ evaluate_and_get_maps self episode_id scene_id log_dir map_height
      args kwargs h
    = (h, Raise NotImplementedError).
Proof. split_and!; reflexivity. Qed.

(** * The reducers on two episodes *)

Lemma two_episodes_wf : wf_collection two_episodes.
Proof.
  split; [unfold wf_dict; solve_nodup|].
  unfold two_episodes. repeat (apply Forall_cons_2; [unfold wf_dict; solve_nodup|]).
  apply Forall_nil_2.
Qed.

Lemma two_episodes_occurs k v :
  dict_get k [("distance_to_goal", 1%Q); ("spl", 2%Q)] = Some v →
  occurs k two_episodes.
Proof.
  intros Hk. eexists _, _. split; [apply list_elem_of_here | by rewrite Hk].
Qed.

(** C1 as stated fails: [spl] occurs in one episode of two, with value 2; the
    mean over the episodes that contain it is 2, and the code returns 1. *)
Lemma avg_metric_not_mean_of_containing :
  wf_collection two_episodes ∧ two_episodes ≠ [] ∧ occurs "spl" two_episodes
  ∧ ∃ avg_metrics v,
      compute_avg_metrics two_episodes = Ok avg_metrics
      ∧ dict_get "spl" avg_metrics = Some v
      ∧ (v == 1)%Q
      ∧ (mean (values_of "spl" two_episodes) == 2)%Q
      ∧ ¬ (v == mean (values_of "spl" two_episodes))%Q.
Proof.
  split_and!; [apply two_episodes_wf | done | by eapply two_episodes_occurs |].
  eexists _, _. split_and!; [reflexivity | reflexivity | done | done |].
  vm_compute. discriminate.
Qed.

Lemma avg_metric_sum_over_episode_count_witness :
  ∃ avg_metrics,
    compute_avg_metrics two_episodes = Ok avg_metrics
    ∧ dict_get "distance_to_goal" avg_metrics
      = Some (ndiv (sum (values_of "distance_to_goal" two_episodes))
                (length two_episodes))
    ∧ ((∀ e em, (e, em) ∈ two_episodes →
          is_Some (dict_get "distance_to_goal" em)) →
       dict_get "distance_to_goal" avg_metrics
       = Some (mean (values_of "distance_to_goal" two_episodes))).
Proof.
  apply (avg_metric_sum_over_episode_count two_episodes "distance_to_goal").
  - apply two_episodes_wf.
  - discriminate.
  - by eapply two_episodes_occurs.
Defined.

Lemma avg_metrics_sum_divided_by_total_witness :
  ∃ avg_metrics,
    compute_avg_metrics two_episodes = Ok avg_metrics
    ∧ wf_dict avg_metrics
    ∧ (∀ k, k ∈ dict_keys avg_metrics ↔ occurs k two_episodes)
    ∧ (∀ k, occurs k two_episodes →
         dict_get k avg_metrics
         = Some (ndiv (sum (values_of k two_episodes))
                   (length two_episodes))).
Proof.
  apply (avg_metrics_sum_divided_by_total two_episodes).
  - apply two_episodes_wf.
  - discriminate.
Defined.

(** C6 as stated fails: on the empty collection there is a result, and it is
    not a division by zero. *)
Lemma avg_metrics_empty_is_a_result :
  compute_avg_metrics (@nil (string * dict Q)) = Ok []
  ∧ compute_avg_metrics (@nil (string * dict Q)) ≠ Raise ZeroDivisionError.
Proof. split; [reflexivity | discriminate]. Qed.

Lemma extract_metrics_narrows_witness :
  ∃ R,
    extract_metrics two_episodes ["distance_to_goal"] = Ok R
    ∧ dict_keys R = dict_keys two_episodes
    ∧ ∀ e em, dict_get e two_episodes = Some em →
        ∃ d, dict_get e R = Some d
             ∧ wf_dict d
             ∧ (∀ n, n ∈ dict_keys d ↔ n ∈ ["distance_to_goal"])
             ∧ (∀ n, n ∈ ["distance_to_goal"] →
                  dict_get n d = dict_get n em).
Proof.
  apply (extract_metrics_narrows two_episodes ["distance_to_goal"]).
  - apply two_episodes_wf.
  - intros e em n Hin ->%list_elem_of_singleton.
    unfold two_episodes in Hin.
    repeat (apply elem_of_cons in Hin as [[= -> ->]|Hin]; [by eexists|]).
    by apply elem_of_nil in Hin.
Defined.

(** * How the reducers compose *)

(** Two episodes that carry the same three metrics. *)
Definition full_episodes : dict (dict Q) :=
  [ ("0,skokloster-castle.glb",
      [("distance_to_goal", 1%Q); ("success", 1%Q); ("spl", 2%Q)]);
    ("1,skokloster-castle.glb",
      [("distance_to_goal", 3%Q); ("success", 0%Q); ("spl", 0%Q)]) ].

Section ReducerCompose.
Context {num : Type} `{!Numeric num}.
Implicit Types (M R : dict (dict num)) (em d acc : dict num).
Implicit Types (k n e : string) (names : list string).

(** The comprehension looks at its episode only under the requested names. *)
Lemma metrics_comprehension_ext em em' names acc :
  (∀ n, n ∈ names → dict_get n em = dict_get n em') →
  metrics_comprehension em names acc = metrics_comprehension em' names acc.
Proof.
  revert acc. induction names as [|n names IH]; intros acc Hsame; [done|].
  cbn [metrics_comprehension]. unfold getitem.
  rewrite <- (Hsame n) by apply list_elem_of_here.
  destruct (dict_get n em) as [v|]; [|done]. cbn [mbind result_bind].
  apply IH. intros n' Hn'. apply Hsame, elem_of_cons. auto.
Qed.

Lemma extract_loop_narrowed names1 names2 (items : dict (dict num)) ds new :
  (∀ n, n ∈ names2 → n ∈ names1) →
  Forall2 (λ ep d, metrics_comprehension ep.2 names1 [] = Ok d) items ds →
  extract_loop (zip (dict_keys items) ds) names2 new
  = extract_loop items names2 new.
Proof.
  intros Hsub Hall. revert new.
  induction Hall as [|[e em] d items ds Hd _ IH]; intros new; [done|].
  unfold dict_keys. rewrite fmap_cons. cbn [zip zip_with fst extract_loop].
  cbn [snd] in Hd. apply metrics_comprehension_Ok in Hd as (_ & Hget & _).
  rewrite (metrics_comprehension_ext d em names2 []).
  - destruct (metrics_comprehension em names2 []) as [d2|]; [|done].
    cbn [mbind result_bind]. apply IH.
  - intros n Hn. by rewrite Hget, decide_True by auto.
Qed.

(** Narrowing a narrowed collection is narrowing the collection it came
    from, and narrowing twice by the same names changes nothing. *)
Theorem extract_metrics_compose M names1 names2 R1 :
  wf_dict M →
  extract_metrics M names1 = Ok R1 →
  (∀ n, n ∈ names2 → n ∈ names1) →
  extract_metrics R1 names2 = extract_metrics M names2
  ∧ extract_metrics R1 names1 = Ok R1.
Proof.
  unfold extract_metrics. intros Hwf HR1 Hsub.
  destruct (extract_loop_Ok M names1 [] R1 HR1) as (ds & -> & Hds); [done|].
  cbn [app]. split.
  - by apply (extract_loop_narrowed names1).
  - rewrite (extract_loop_narrowed names1 names1); done.
Qed.

Lemma values_of_narrowed k names (items : dict (dict num)) ds :
  Forall2 (λ ep d, metrics_comprehension ep.2 names [] = Ok d) items ds →
  values_of k (zip (dict_keys items) ds)
  = if decide (k ∈ names) then values_of k items else [].
Proof.
  unfold values_of.
  induction 1 as [|[e em] d items ds Hd _ IH]; [by destruct (decide _)|].
  unfold dict_keys. rewrite fmap_cons.
  cbn [zip_with fst omap list_omap snd]. cbn [snd] in Hd.
  apply metrics_comprehension_Ok in Hd as (_ & Hget & _).
  unfold dict_keys in IH. rewrite IH, Hget.
  by destruct (decide (k ∈ names)).
Qed.

(** Averaging a narrowed collection gives the averages of the collection it
    came from, for the names that were kept, and nothing else. *)
Theorem avg_of_extract M names R :
  wf_collection M →
  extract_metrics M names = Ok R →
  ∃ avg_M avg_R,
    compute_avg_metrics M = Ok avg_M
    ∧ compute_avg_metrics R = Ok avg_R
    ∧ ∀ k, dict_get k avg_R
           = if decide (k ∈ names) then dict_get k avg_M else None.
Proof.
  unfold extract_metrics. intros [HwfM HwfE] HR.
  destruct (extract_loop_Ok M names [] R HR) as (ds & -> & Hds); [done|].
  cbn [app]. eexists _, _.
  split; [apply compute_avg_metrics_eq|].
  split; [apply compute_avg_metrics_eq|]. intros k.
  rewrite (compute_avg_metrics_get k _ _ (compute_avg_metrics_eq _)).
  - rewrite (compute_avg_metrics_get k M _ (compute_avg_metrics_eq M)) by done.
    rewrite (values_of_narrowed k names M ds Hds).
    rewrite length_zip_with_l_eq.
    + unfold dict_keys. rewrite length_fmap.
      by destruct (decide (k ∈ names)).
    + unfold dict_keys. rewrite length_fmap. by eapply Forall2_length.
  - clear HR. induction Hds as [|[e em] d items ds Hd _ IH]; [done|].
    unfold dict_keys. rewrite fmap_cons. cbn [zip zip_with fst].
    apply Forall_cons in HwfE as [_ HwfE].
    apply Forall_cons_2.
    + apply metrics_comprehension_Ok in Hd as (_ & _ & Hwf).
      apply Hwf, wf_dict_nil.
    + apply IH; [|done]. unfold wf_dict, dict_keys in *.
      rewrite fmap_cons in HwfM. by apply NoDup_cons in HwfM as [_ ?].
Qed.

(** Which key the error names: the call raises [KeyError n] exactly when an
    episode lacks [n], every episode before it has every requested name, and
    that episode has the names requested before [n]. *)
Theorem extract_metrics_first_missing M names n :
  extract_metrics M names = Raise (KeyError n)
  ↔ ∃ M1 e em M2 names1 names2,
      M = M1 ++ (e, em) :: M2
      ∧ names = names1 ++ n :: names2
      ∧ dict_get n em = None
      ∧ (∀ n', n' ∈ names1 → is_Some (dict_get n' em))
      ∧ (∀ e' em' n', (e', em') ∈ M1 → n' ∈ names →
           is_Some (dict_get n' em')).
Proof.
  unfold extract_metrics.
  assert (∀ em names acc,
            metrics_comprehension em names acc = Raise (KeyError n)
            ↔ ∃ names1 names2,
                names = names1 ++ n :: names2 ∧ dict_get n em = None
                ∧ ∀ n', n' ∈ names1 → is_Some (dict_get n' em)) as Hcomp.
  { intros em ns. induction ns as [|n0 ns IH]; intros acc.
    - split; [done|]. intros (ns1 & ns2 & Hnil & _). by destruct ns1.
    - cbn [metrics_comprehension]. unfold getitem.
      destruct (dict_get n0 em) as [v|] eqn:Hn0; cbn [mbind result_bind].
      + rewrite IH. split.
        * intros (ns1 & ns2 & -> & Hnone & Hbefore).
          exists (n0 :: ns1), ns2. split_and!; [done..|].
          intros n' [->|?]%elem_of_cons; [by rewrite Hn0 | auto].
        * intros (ns1 & ns2 & Heq & Hnone & Hbefore).
          destruct ns1 as [|n1 ns1]; injection Heq as <- ->; [congruence|].
          exists ns1, ns2. split_and!; [done..|].
          intros n' Hn'. apply Hbefore, elem_of_cons. auto.
      + split.
        * intros [= <-]. exists [], ns. split_and!; [done..|].
          by intros ? ?%elem_of_nil.
        * intros (ns1 & ns2 & Heq & Hnone & Hbefore).
          destruct ns1 as [|n1 ns1]; injection Heq as <- ->; [done|].
          destruct (Hbefore n0) as [v Hv]; [apply list_elem_of_here|].
          congruence. }
  generalize (@nil (string * dict num)) as new.
  induction M as [|[e em] M IH]; intros new.
  - split; [done|]. intros (M1 & ? & ? & ? & ? & ? & Hnil & _).
    by destruct M1.
  - cbn [extract_loop].
    destruct (metrics_comprehension em names []) as [d|err] eqn:Hd;
      cbn [mbind result_bind].
    + apply metrics_comprehension_Ok in Hd as (Hall & _).
      rewrite IH. split.
      * intros (M1 & e' & em' & M2 & ns1 & ns2 & -> & -> & Hnone & Hb & HM1).
        exists ((e, em) :: M1), e', em', M2, ns1, ns2.
        split_and!; [done..|].
        intros e0 em0 n' [[= -> ->]|Hin]%elem_of_cons Hn'; [auto|].
        by apply (HM1 e0 em0 n').
      * intros (M1 & e' & em' & M2 & ns1 & ns2 & Heq & -> & Hnone & Hb & HM1).
        destruct M1 as [|ep M1]; injection Heq as <- ->.
        -- destruct (Hall n) as [v Hv]; [|congruence].
           apply elem_of_app. right. apply list_elem_of_here.
        -- exists M1, e', em', M2, ns1, ns2. split_and!; [done..|].
           intros e0 em0 n' Hin Hn'. apply (HM1 e0 em0 n'); [|done].
           apply elem_of_cons. auto.
    + split.
      * intros [= ->]. apply Hcomp in Hd as (ns1 & ns2 & -> & Hnone & Hb).
        exists [], e, em, M, ns1, ns2. split_and!; [done..|].
        by intros ? ? ? ?%elem_of_nil.
      * intros (M1 & e' & em' & M2 & ns1 & ns2 & Heq & -> & Hnone & Hb & HM1).
        destruct M1 as [|[e1 em1] M1]; cbn [app] in Heq; simplify_eq.
        -- f_equal.
           assert (metrics_comprehension em' (ns1 ++ n :: ns2) []
                   = Raise (KeyError n)) as Hn.
           { apply Hcomp. by exists ns1, ns2. }
           congruence.
        -- apply metrics_comprehension_Raise in Hd as (n' & _ & Hn' & Hmiss).
           destruct (HM1 e1 em1 n') as [v Hv];
             [apply list_elem_of_here | done | congruence].
Qed.
End ReducerCompose.

Lemma extract_metrics_compose_witness :
  extract_metrics
    [ ("0,skokloster-castle.glb", [("spl", 2%Q); ("success", 1%Q)]);
      ("1,skokloster-castle.glb", [("spl", 0%Q); ("success", 0%Q)]) ]
    ["success"]
  = extract_metrics full_episodes ["success"]
  ∧ extract_metrics
      [ ("0,skokloster-castle.glb", [("spl", 2%Q); ("success", 1%Q)]);
        ("1,skokloster-castle.glb", [("spl", 0%Q); ("success", 0%Q)]) ]
      ["spl"; "success"]
    = Ok [ ("0,skokloster-castle.glb", [("spl", 2%Q); ("success", 1%Q)]);
           ("1,skokloster-castle.glb", [("spl", 0%Q); ("success", 0%Q)]) ].
Proof.
  apply (extract_metrics_compose full_episodes ["spl"; "success"] ["success"]).
  - unfold wf_dict. solve_nodup.
  - reflexivity.
  - intros n ->%list_elem_of_singleton. apply elem_of_cons. right.
    apply list_elem_of_here.
Defined.

Lemma avg_of_extract_witness :
  ∃ avg_M avg_R,
    compute_avg_metrics full_episodes = Ok avg_M
    ∧ compute_avg_metrics
        [ ("0,skokloster-castle.glb", [("spl", 2%Q)]);
          ("1,skokloster-castle.glb", [("spl", 0%Q)]) ] = Ok avg_R
    ∧ ∀ k, dict_get k avg_R
           = if decide (k ∈ ["spl"]) then dict_get k avg_M else None.
Proof.
  apply (avg_of_extract full_episodes ["spl"]).
  - split; [unfold wf_dict; solve_nodup|]. unfold full_episodes.
    repeat (apply Forall_cons_2; [unfold wf_dict; solve_nodup|]).
    apply Forall_nil_2.
  - reflexivity.
Defined.

(** * What the overlay touches *)

Lemma dict_set_id {V : Type} k (v : V) (d : dict V) :
  dict_get k d = Some v → dict_set k v d = d.
Proof.
  induction d as [|[k' v'] d IH]; cbn [dict_get dict_set]; [done|].
  destruct (String.eqb_spec k k') as [->|]; [by intros [= ->]|].
  intros ?. by rewrite IH.
Qed.

Lemma copy_fields_id (src dst : dict value) :
  wf_dict src →
  (∀ ik iv, dict_get ik src = Some iv → dict_get ik dst = Some iv) →
  copy_fields src dst = dst.
Proof.
  unfold copy_fields, wf_dict, dict_keys.
  induction src as [|[ik iv] src IH]; intros Hwf Hsame; [done|].
  rewrite fmap_cons in Hwf. apply NoDup_cons in Hwf as [Hik Hwf].
  cbn [fold_left fst snd]. rewrite dict_set_id.
  - apply IH; [done|]. intros ik' iv' Hget. apply Hsame. cbn [dict_get].
    destruct (String.eqb_spec ik' ik) as [->|]; [|done].
    apply dict_get_None in Hik. cbn [fst] in Hik. congruence.
  - apply Hsame. cbn [dict_get]. by rewrite String.eqb_refl.
Qed.

Section Outcome.
Context {h : heap} {c s p : loc} {cn sn pn : dict value}.
Hypothesis L : layout h c s p cn sn pn.

(** An entry is copied, or its turn stops the loop where the store stands:
    with [TypeError] when [SIMULATOR] has a leaf under the key of a section
    with a field, with [KeyError] when it has nothing. *)
Lemma copy_key_outcome done k v rest h1 :
  pn = done ++ (k, v) :: rest →
  merged_upto h s sn done h1 →
  copyable h sn (k, v)
  ∨ (∃ a, dict_get k sn = Some (VLeaf a)
          ∧ copy_key (VNode c) k h1 = (h1, Raise TypeError))
  ∨ (dict_get k sn = None
     ∧ copy_key (VNode c) k h1 = (h1, Raise (KeyError k))).
Proof.
  intros Hpn Hinv.
  pose proof (lay_sim_attr _ _ _ _ _ _ _ L) as Hsim.
  pose proof (lay_phys_attr _ _ _ _ _ _ _ L) as Hphys.
  destruct (merged_upto_reads L _ _ Hinv) as (Hc & Hp & Hsub).
  destruct v as [a|q]; [left; by intros ? [=]|].
  destruct (dict_get_middle k (VNode q) done rest) as [Hfresh Hk];
    [rewrite <- Hpn; apply L|]. rewrite <- Hpn in Hk.
  destruct (lay_sub _ _ _ _ _ _ _ L k q Hk) as (_ & qn & Hq & _).
  destruct qn as [|entry qn]; [left; intros ? [= <-]; by left|].
  destruct Hinv as (_ & (sn1 & Hs1 & Hsn1) & _).
  assert (dict_get k sn1 = dict_get k sn) as Hsk by by rewrite Hsn1, Hfresh.
  assert (h1 !! q = Some (entry :: qn)) as Hq1 by by rewrite (Hsub k q Hk).
  destruct (dict_get k sn) as [[a|t]|] eqn:Hkn.
  - right. left. exists a. split; [done|].
    by eapply copy_key_not_section with (s := s) (p := p) (sn := sn1).
  - left. intros ? [= <-]. right. eauto.
  - right. right. split; [done|].
    by eapply copy_key_missing with (s := s) (p := p) (sn := sn1).
Qed.

(** However the loop ends, what it has done is the copy of the entries of
    [PHYSICS_SIMULATOR] up to some point. *)
Lemma overlay_loop_outcome todo :
  ∀ done h1,
    pn = done ++ todo →
    merged_upto h s sn done h1 →
    ∃ done' rest h2 r,
      iterate p (length pn) (dict_keys todo) (copy_key (VNode c)) h1 = (h2, r)
      ∧ merged_upto h s sn done' h2
      ∧ pn = done' ++ rest.
Proof.
  induction todo as [|[k v] todo IH]; intros done h1 Hpn Hinv;
    destruct (merged_upto_reads L _ _ Hinv) as (_ & Hp & _).
  { exists done, [], h1, (Ok ()). split_and!; [by apply run_iterate_nil|done..]. }
  unfold dict_keys. rewrite fmap_cons. cbn [fst].
  rewrite run_iterate_cons by done.
  destruct (copy_key_outcome done k v todo h1 Hpn Hinv)
    as [Hok|[(a & _ & Hrun)|(_ & Hrun)]].
  - destruct (merged_upto_step L done k v todo h1 Hpn Hinv Hok)
      as (h2 & Hrun & Hinv2).
    destruct (IH (done ++ [(k, v)]) h2)
      as (done' & rest & h3 & r & Hloop & Hinv3 & Hpn3);
      [by rewrite <- app_assoc | done |].
    exists done', rest, h3, r. split_and!; [|done..].
    by rewrite (run_bind _ _ h1 h2 ()).
  - exists done, ((k, v) :: todo), h1, (Raise TypeError).
    split_and!; [by apply run_bind_raise|done..].
  - exists done, ((k, v) :: todo), h1, (Raise (KeyError k)).
    split_and!; [by apply run_bind_raise|done..].
Qed.

Lemma overwrite_simulator_config_outcome physics_importable :
  ∃ done rest h' r,
    overwrite_simulator_config physics_importable (VNode c) h = (h', r)
    ∧ merged_upto h s sn done h'
    ∧ pn = done ++ rest.
Proof.
  destruct (overlay_loop_outcome pn [] h eq_refl (merged_upto_start L))
    as (done & rest & h' & r & Hloop & Hinv & Hpn).
  unfold overwrite_simulator_config.
  rewrite (run_bind _ _ h h (VNode p)) by (eapply run_getattr; apply L).
  assert (for_in_keys (VNode p) (copy_key (VNode c)) h = (h', r)) as Hfor.
  { unfold for_in_keys.
    by rewrite (run_bind _ _ h h pn) by (apply run_deref; apply L). }
  destruct r as [[]|e].
  - exists done, rest, h',
      (if physics_importable then Ok () else Raise ImportError).
    split_and!; [|done..]. rewrite (run_bind _ _ h h' ()) by done.
    by destruct physics_importable.
  - exists done, rest, h', (Raise e). split_and!; [|done..].
    by apply run_bind_raise.
Qed.

(** In a store where the copy has been made, the loop finds every value in
    place and assigns it again. *)
Lemma overlay_loop_again h' todo :
  merged_upto h s sn pn h' →
  Forall (copyable h sn) pn →
  ∀ done, pn = done ++ todo →
    iterate p (length pn) (dict_keys todo) (copy_key (VNode c)) h' = (h', Ok ()).
Proof.
  intros Hinv Hok.
  pose proof (lay_sim_attr _ _ _ _ _ _ _ L) as Hsim.
  pose proof (lay_phys_attr _ _ _ _ _ _ _ L) as Hphys.
  destruct (merged_upto_reads L _ _ Hinv) as (Hc & Hp & Hsub).
  destruct Hinv as (_ & (sn1 & Hs1 & Hsn1) & Hchild).
  induction todo as [|[k v] todo IH]; intros done Hpn;
    [by apply run_iterate_nil|].
  unfold dict_keys. rewrite fmap_cons. cbn [fst].
  rewrite run_iterate_cons by done.
  destruct (dict_get_middle k v done todo) as [_ Hk];
    [rewrite <- Hpn; apply L|]. rewrite <- Hpn in Hk.
  rewrite (run_bind _ _ h' h' ()).
  { apply (IH (done ++ [(k, v)])). by rewrite <- app_assoc. }
  destruct v as [a|q].
  - rewrite (copy_key_leaf c s p cn pn Hsim Hphys h' k a sn1) by done.
    rewrite dict_set_id by by rewrite Hsn1, Hk.
    by rewrite list_insert_id.
  - destruct (lay_sub _ _ _ _ _ _ _ L k q Hk) as (_ & qn & Hq & Hwfq).
    assert (h' !! q = Some qn) as Hq' by by rewrite (Hsub k q Hk).
    assert (copyable h sn (k, VNode q)) as Hcopy.
    { eapply Forall_forall in Hok; [done|]. by apply dict_get_elem_of. }
    destruct (Hcopy q eq_refl) as [Hempty|[t Ht]].
    { rewrite Hq in Hempty. injection Hempty as ->.
      by eapply copy_key_empty. }
    cbn [fst] in Ht.
    destruct (Hchild k t Ht) as (tn & tn1 & _ & Htn1 & Hget).
    destruct (lay_child _ _ _ _ _ _ _ L k t Ht) as (_ & Htc & Htp & Hts & Htq).
    rewrite (copy_key_node c s p cn pn Hsim Hphys h' k q qn t tn1 sn1);
      [| done | done | done | done | done | done | by rewrite Hsn1, Hk | done
       | done | done | done | by apply (Htq k q)].
    rewrite copy_fields_id; [by rewrite list_insert_id | done |].
    intros ik iv Hik. rewrite Hget, Hk, Hq. cbn [mbind option_bind].
    by rewrite Hik.
Qed.

(** The loop stops with [TypeError] at the first entry that cannot be
    copied when that entry is a section with a field and [SIMULATOR] holds a
    leaf under its key. *)
Lemma overwrite_simulator_config_leaf_target physics_importable
    done k q qn rest a :
  pn = done ++ (k, VNode q) :: rest →
  Forall (copyable h sn) done →
  h !! q = Some qn → qn ≠ [] → dict_get k sn = Some (VLeaf a) →
  ∃ h', merged_upto h s sn done h'
        ∧ overwrite_simulator_config physics_importable (VNode c) h
          = (h', Raise TypeError).
Proof.
  intros Hpn Hok Hq Hne Hleaf.
  destruct (overlay_loop_prefix L done [] h ((k, VNode q) :: rest))
    as (h' & Hinv & Hloop); [done | apply (merged_upto_start L) | done |].
  cbn [app] in Hinv, Hloop. exists h'. split; [done|].
  destruct (dict_get_middle k (VNode q) done rest) as [Hfresh Hk];
    [rewrite <- Hpn; apply L|]. rewrite <- Hpn in Hk.
  destruct (merged_upto_reads L _ _ Hinv) as (Hc & Hp & Hsub).
  destruct Hinv as (_ & (sn1 & Hs1 & Hsn1) & _).
  unfold overwrite_simulator_config.
  rewrite (run_bind _ _ h h (VNode p))
    by (eapply run_getattr; apply L).
  apply run_bind_raise. unfold for_in_keys.
  rewrite (run_bind _ _ h h pn) by (apply run_deref; apply L).
  rewrite Hpn at 2. rewrite Hloop. unfold dict_keys. rewrite fmap_cons.
  cbn [fst]. rewrite run_iterate_cons by done.
  apply run_bind_raise.
  eapply copy_key_not_section
    with (s := s) (p := p) (q := q) (qn := qn) (sn := sn1) (a := a);
    eauto; try apply L.
  - by rewrite (Hsub k q Hk).
  - by rewrite Hsn1, Hfresh.
Qed.
End Outcome.

(** [SIMULATOR] has a leaf [B] where [PHYSICS_SIMULATOR] has a section [B]
    with a field. *)
Definition leaf_target_heap : heap :=
  [ [("SIMULATOR", VNode 1); ("PHYSICS_SIMULATOR", VNode 2)];
    [("A", VLeaf (LInt 1)); ("B", VLeaf (LInt 5))];
    [("A", VLeaf (LInt 9)); ("B", VNode 3)];
    [("x", VLeaf (LInt 8))] ].

(** A configuration without a [SIMULATOR] section; [PHYSICS_SIMULATOR]
    starts with an empty section. *)
Definition no_simulator_heap : heap :=
  [ [("PHYSICS_SIMULATOR", VNode 1)];
    [("HABITAT_SIM_V0", VNode 2); ("A", VLeaf (LInt 9))];
    [] ].

(** Whatever the outcome of the call on a hierarchical configuration, an
    object that is neither [SIMULATOR] nor one of its sections is left as it
    was: [config] itself, [PHYSICS_SIMULATOR] and every other section. *)
Theorem overlay_writes_only_simulator physics_importable
    (h : heap) c cn s p sn h' r l :
  wf_heap h → hierarchical h (VNode c) →
  h !! c = Some cn →
  dict_get "SIMULATOR" cn = Some (VNode s) →
  dict_get "PHYSICS_SIMULATOR" cn = Some (VNode p) →
  h !! s = Some sn →
  overwrite_simulator_config physics_importable (VNode c) h = (h', r) →
  l ≠ s → (∀ k, dict_get k sn ≠ Some (VNode l)) →
  h' !! l = h !! l.
Proof.
  intros Hwf Hhier Hc Hsim Hphys Hs Hrun Hl Hnot.
  destruct (hierarchical_layout h c cn s p Hwf Hhier Hc Hsim Hphys)
    as (sn' & pn & _ & _ & L & _).
  assert (sn' = sn) as -> by (pose proof (lay_sim _ _ _ _ _ _ _ L); congruence).
  destruct (overwrite_simulator_config_outcome L physics_importable)
    as (done & rest & h2 & r2 & Hrun2 & (Hframe & _) & _).
  rewrite Hrun in Hrun2. injection Hrun2 as <- <-. by apply Hframe.
Qed.

Lemma overlay_writes_only_simulator_witness :
  (overwrite_simulator_config false (VNode 0) example_heap).1 !! 4
  = example_heap !! 4.
Proof.
  apply (overlay_writes_only_simulator false example_heap 0
           [("SIMULATOR", VNode 1); ("PHYSICS_SIMULATOR", VNode 2)] 1 2
           [("A", VLeaf (LInt 1)); ("B", VNode 3)] _
           (overwrite_simulator_config false (VNode 0) example_heap).2 4).
  - unfold wf_heap, example_heap. solve_wf_heap.
  - exists 3, [0; 1; 3; 2; 4]. split; [reflexivity | solve_nodup].
  - reflexivity.
  - reflexivity.
  - reflexivity.
  - reflexivity.
  - reflexivity.
  - discriminate.
  - intros k. cbn [dict_get].
    destruct (String.eqb k "A"); [discriminate|].
    destruct (String.eqb k "B"); discriminate.
Defined.

(** Whatever the outcome of the call on a hierarchical configuration,
    [config] still holds the same [SIMULATOR] object; a key of [SIMULATOR]
    that [PHYSICS_SIMULATOR] does not have keeps its value; and where
    [SIMULATOR[k]] is a section and [PHYSICS_SIMULATOR[k]] is not a leaf,
    [SIMULATOR[k]] is that section after the call too, and a field of it
    keeps its value unless [PHYSICS_SIMULATOR[k]] is a section with that
    field. (A leaf under [PHYSICS_SIMULATOR[k]] replaces the section.) *)
Theorem overlay_keeps_unnamed_keys physics_importable
    (h : heap) c cn s p sn pn h' r :
  wf_heap h → hierarchical h (VNode c) →
  h !! c = Some cn →
  dict_get "SIMULATOR" cn = Some (VNode s) →
  dict_get "PHYSICS_SIMULATOR" cn = Some (VNode p) →
  h !! s = Some sn → h !! p = Some pn →
  overwrite_simulator_config physics_importable (VNode c) h = (h', r) →
  field h' c "SIMULATOR" = Some (VNode s)
  ∧ (∀ k, dict_get k pn = None → field h' s k = field h s k)
  ∧ (∀ k t,
       dict_get k sn = Some (VNode t) →
       (∀ a, dict_get k pn ≠ Some (VLeaf a)) →
       field h' s k = Some (VNode t)
       ∧ ∀ ik,
           (∀ q, dict_get k pn = Some (VNode q) → field h q ik = None) →
           field h' t ik = field h t ik).
Proof.
  intros Hwf Hhier Hc Hsim Hphys Hs Hp Hrun.
  destruct (hierarchical_layout h c cn s p Hwf Hhier Hc Hsim Hphys)
    as (sn' & pn' & _ & _ & L & _).
  assert (sn' = sn) as -> by (pose proof (lay_sim _ _ _ _ _ _ _ L); congruence).
  assert (pn' = pn) as -> by (pose proof (lay_phys _ _ _ _ _ _ _ L); congruence).
  destruct (overwrite_simulator_config_outcome L physics_importable)
    as (done & rest & h2 & r2 & Hrun2 & Hinv & Hpn).
  rewrite Hrun in Hrun2. injection Hrun2 as <- <-.
  destruct (merged_upto_reads L _ _ Hinv) as (Hc' & _ & _).
  destruct Hinv as (_ & (sn1 & Hs1 & Hsn1) & Hchild).
  assert (∀ k v, dict_get k done = Some v → dict_get k pn = Some v) as Hdone.
  { intros k v Hk. by rewrite Hpn, dict_get_app, Hk. }
  unfold field. split_and!.
  - by rewrite Hc'.
  - intros k Hk. rewrite Hs1, Hs. cbn [mbind option_bind]. rewrite Hsn1.
    destruct (dict_get k done) as [v|] eqn:Hkd; [|done].
    apply Hdone in Hkd. congruence.
  - intros k t Ht Hnoleaf. split.
    + rewrite Hs1. cbn [mbind option_bind]. rewrite Hsn1.
      destruct (dict_get k done) as [[a|q]|] eqn:Hkd; [|done..].
      apply Hdone in Hkd. by destruct (Hnoleaf a).
    + intros ik Hnone.
      destruct (Hchild k t Ht) as (tn & tn1 & -> & -> & Hget).
      cbn [mbind option_bind]. rewrite Hget.
      destruct (dict_get k done) as [[a|q]|] eqn:Hkd; [done| |done].
      apply Hdone in Hkd. specialize (Hnone q Hkd). unfold field in Hnone.
      by rewrite Hnone.
Qed.

Lemma overlay_keeps_unnamed_keys_witness :
  field (overwrite_simulator_config true (VNode 0) example_heap).1 0
    "SIMULATOR" = Some (VNode 1)
  ∧ (∀ k, dict_get k [("A", VLeaf (LInt 9)); ("B", VNode 4)] = None →
       field (overwrite_simulator_config true (VNode 0) example_heap).1 1 k
       = field example_heap 1 k)
  ∧ (∀ k t,
       dict_get k [("A", VLeaf (LInt 1)); ("B", VNode 3)] = Some (VNode t) →
       (∀ a, dict_get k [("A", VLeaf (LInt 9)); ("B", VNode 4)]
             ≠ Some (VLeaf a)) →
       field (overwrite_simulator_config true (VNode 0) example_heap).1 1 k
       = Some (VNode t)
       ∧ ∀ ik,
           (∀ q, dict_get k [("A", VLeaf (LInt 9)); ("B", VNode 4)]
                 = Some (VNode q) → field example_heap q ik = None) →
           field (overwrite_simulator_config true (VNode 0) example_heap).1
             t ik
           = field example_heap t ik).
Proof.
  apply (overlay_keeps_unnamed_keys true example_heap 0
           [("SIMULATOR", VNode 1); ("PHYSICS_SIMULATOR", VNode 2)] 1 2
           [("A", VLeaf (LInt 1)); ("B", VNode 3)]
           [("A", VLeaf (LInt 9)); ("B", VNode 4)] _
           (overwrite_simulator_config true (VNode 0) example_heap).2).
  - unfold wf_heap, example_heap. solve_wf_heap.
  - exists 3, [0; 1; 3; 2; 4]. split; [reflexivity | solve_nodup].
  - reflexivity.
  - reflexivity.
  - reflexivity.
  - reflexivity.
  - reflexivity.
  - reflexivity.
Defined.

(** The overlay can be applied twice: on a hierarchical configuration whose
    entries can all be copied, a second call has the outcome of the first
    and leaves the store the first call left. *)
Theorem overlay_idempotent physics_importable (h : heap) c cn s p sn pn :
  wf_heap h → hierarchical h (VNode c) →
  h !! c = Some cn →
  dict_get "SIMULATOR" cn = Some (VNode s) →
  dict_get "PHYSICS_SIMULATOR" cn = Some (VNode p) →
  h !! s = Some sn → h !! p = Some pn →
  Forall (copyable h sn) pn →
  ∃ h' r,
    overwrite_simulator_config physics_importable (VNode c) h = (h', r)
    ∧ overwrite_simulator_config physics_importable (VNode c) h' = (h', r).
Proof.
  intros Hwf Hhier Hc Hsim Hphys Hs Hp Hok.
  destruct (hierarchical_layout h c cn s p Hwf Hhier Hc Hsim Hphys)
    as (sn' & pn' & _ & _ & L & _).
  assert (sn' = sn) as -> by (pose proof (lay_sim _ _ _ _ _ _ _ L); congruence).
  assert (pn' = pn) as -> by (pose proof (lay_phys _ _ _ _ _ _ _ L); congruence).
  destruct (overwrite_simulator_config_run L physics_importable Hok)
    as (h' & Hinv & Hrun).
  exists h', (if physics_importable then Ok () else Raise ImportError).
  split; [done|].
  destruct (merged_upto_reads L _ _ Hinv) as (Hc' & Hp' & _).
  unfold overwrite_simulator_config.
  rewrite (run_bind _ _ h' h' (VNode p)) by by eapply run_getattr.
  rewrite (run_bind _ _ h' h' ()); [by destruct physics_importable|].
  unfold for_in_keys. rewrite (run_bind _ _ h' h' pn) by by apply run_deref.
  by apply (overlay_loop_again L h' pn Hinv Hok []).
Qed.

Lemma overlay_idempotent_witness :
  ∃ h' r,
    overwrite_simulator_config true (VNode 0) example_heap = (h', r)
    ∧ overwrite_simulator_config true (VNode 0) h' = (h', r).
Proof.
  apply (overlay_idempotent true example_heap 0
           [("SIMULATOR", VNode 1); ("PHYSICS_SIMULATOR", VNode 2)] 1 2
           [("A", VLeaf (LInt 1)); ("B", VNode 3)]
           [("A", VLeaf (LInt 9)); ("B", VNode 4)]).
  - unfold wf_heap, example_heap. solve_wf_heap.
  - exists 3, [0; 1; 3; 2; 4]. split; [reflexivity | solve_nodup].
  - reflexivity.
  - reflexivity.
  - reflexivity.
  - reflexivity.
  - reflexivity.
  - apply Forall_cons_2; [by intros ? [=]|].
    apply Forall_cons_2; [|apply Forall_nil_2].
    intros ? [= <-]. right. exists 3. reflexivity.
Defined.

(** When the first entry of [PHYSICS_SIMULATOR] that cannot be copied is a
    nested section with a field and [SIMULATOR] holds a leaf under its key,
    the call raises [TypeError], whatever the imports would do; the entries
    before it have been copied and the leaf is still there. *)
Theorem leaf_target_raises_type_error physics_importable
    (h : heap) c cn s p sn pn done k q qn rest a :
  wf_heap h → hierarchical h (VNode c) →
  h !! c = Some cn →
  dict_get "SIMULATOR" cn = Some (VNode s) →
  dict_get "PHYSICS_SIMULATOR" cn = Some (VNode p) →
  h !! s = Some sn → h !! p = Some pn →
  pn = done ++ (k, VNode q) :: rest →
  Forall (copyable h sn) done →
  h !! q = Some qn → qn ≠ [] →
  dict_get k sn = Some (VLeaf a) →
  ∃ h',
    overwrite_simulator_config physics_importable (VNode c) h
    = (h', Raise TypeError)
    ∧ copied_into h' s done
    ∧ field h' s k = Some (VLeaf a).
Proof.
  intros Hwf Hhier Hc Hsim Hphys Hs Hp Hpn Hok Hq Hne Hleaf.
  destruct (hierarchical_layout h c cn s p Hwf Hhier Hc Hsim Hphys)
    as (sn' & pn' & _ & _ & L & _).
  assert (sn' = sn) as -> by (pose proof (lay_sim _ _ _ _ _ _ _ L); congruence).
  assert (pn' = pn) as -> by (pose proof (lay_phys _ _ _ _ _ _ _ L); congruence).
  destruct (overwrite_simulator_config_leaf_target L physics_importable
              done k q qn rest a Hpn Hok Hq Hne Hleaf) as (h' & Hinv & Hrun).
  exists h'. split_and!; [done | by eapply (merged_upto_copied L) |].
  destruct (dict_get_middle k (VNode q) done rest) as [Hfresh _];
    [rewrite <- Hpn; apply L|].
  destruct Hinv as (_ & (sn1 & Hs1 & Hsn1) & _).
  unfold field. rewrite Hs1. cbn [mbind option_bind].
  by rewrite Hsn1, Hfresh.
Qed.

Lemma leaf_target_raises_type_error_witness :
  ∃ h',
    overwrite_simulator_config true (VNode 0) leaf_target_heap
    = (h', Raise TypeError)
    ∧ copied_into h' 1 [("A", VLeaf (LInt 9))]
    ∧ field h' 1 "B" = Some (VLeaf (LInt 5)).
Proof.
  apply (leaf_target_raises_type_error true leaf_target_heap 0
           [("SIMULATOR", VNode 1); ("PHYSICS_SIMULATOR", VNode 2)] 1 2
           [("A", VLeaf (LInt 1)); ("B", VLeaf (LInt 5))]
           [("A", VLeaf (LInt 9)); ("B", VNode 3)]
           [("A", VLeaf (LInt 9))] "B" 3 [("x", VLeaf (LInt 8))] []).
  - unfold wf_heap, leaf_target_heap. solve_wf_heap.
  - exists 3, [0; 1; 2; 3]. split; [reflexivity | solve_nodup].
  - reflexivity.
  - reflexivity.
  - reflexivity.
  - reflexivity.
  - reflexivity.
  - reflexivity.
  - apply Forall_cons_2; [by intros ? [=] | apply Forall_nil_2].
  - reflexivity.
  - discriminate.
  - reflexivity.
Defined.

(** * A configuration without a [SIMULATOR] section *)

Lemma run_getattr_missing (h : heap) (l : loc) nd name :
  h !! l = Some nd → dict_get name nd = None →
  getattr (VNode l) name h = (h, Raise (AttributeError name)).
Proof.
  intros Hl Hv. unfold getattr.
  rewrite (run_bind _ _ h h nd) by by apply run_deref. by rewrite Hv.
Qed.

Lemma copy_key_no_simulator (c p : loc) (cn pn : dict value) (h : heap) k v :
  dict_get "SIMULATOR" cn = None →
  dict_get "PHYSICS_SIMULATOR" cn = Some (VNode p) →
  h !! c = Some cn → h !! p = Some pn →
  dict_get k pn = Some v →
  (∀ q, v = VNode q → ∃ entry qn, h !! q = Some (entry :: qn)) →
  copy_key (VNode c) k h = (h, Raise (AttributeError "SIMULATOR")).
Proof.
  intros Hsim Hphys Hc Hp Hk Hv. unfold copy_key.
  rewrite (run_bind _ _ h h (VNode p)) by by eapply run_getattr.
  rewrite (run_bind _ _ h h v) by by eapply run_subscript.
  destruct v as [a|q]; cbn [isinstance_Config].
  - rewrite (run_bind _ _ h h (VNode p)) by by eapply run_getattr.
    rewrite (run_bind _ _ h h (VLeaf a)) by by eapply run_subscript.
    apply run_bind_raise. by eapply run_getattr_missing.
  - destruct (Hv q eq_refl) as ([ik iv] & qn & Hq).
    rewrite (run_bind _ _ h h (VNode p)) by by eapply run_getattr.
    rewrite (run_bind _ _ h h (VNode q)) by by eapply run_subscript.
    unfold for_in_keys. rewrite (run_bind _ _ h h _) by by apply run_deref.
    unfold dict_keys. rewrite fmap_cons. cbn [fst].
    rewrite run_iterate_cons by done.
    apply run_bind_raise. unfold copy_field.
    rewrite (run_bind _ _ h h (VNode p)) by by eapply run_getattr.
    rewrite (run_bind _ _ h h (VNode q)) by by eapply run_subscript.
    rewrite (run_bind _ _ h h iv).
    2:{ eapply run_subscript; [done|]. cbn [dict_get].
        by rewrite String.eqb_refl. }
    apply run_bind_raise. by eapply run_getattr_missing.
Qed.

(** When [config] has no [SIMULATOR], the call raises [AttributeError] at the
    first entry of [PHYSICS_SIMULATOR] that is not an empty section, and the
    store is as it was: empty sections are passed over without a look at
    [SIMULATOR]. *)
Theorem simulator_missing_raises_attribute_error physics_importable
    (h : heap) c cn p pn empties k v rest :
  h !! c = Some cn →
  dict_get "SIMULATOR" cn = None →
  dict_get "PHYSICS_SIMULATOR" cn = Some (VNode p) →
  h !! p = Some pn → wf_dict pn →
  pn = empties ++ (k, v) :: rest →
  Forall (λ kv, ∃ q, kv.2 = VNode q ∧ h !! q = Some []) empties →
  (∀ q, v = VNode q → ∃ entry qn, h !! q = Some (entry :: qn)) →
  overwrite_simulator_config physics_importable (VNode c) h
  = (h, Raise (AttributeError "SIMULATOR")).
Proof.
  intros Hc Hsim Hphys Hp Hwf Hpn Hempties Hv.
  unfold overwrite_simulator_config.
  rewrite (run_bind _ _ h h (VNode p)) by by eapply run_getattr.
  apply run_bind_raise. unfold for_in_keys.
  rewrite (run_bind _ _ h h pn) by by apply run_deref.
  rewrite Hpn at 2.
  assert (∀ done, pn = done ++ empties ++ (k, v) :: rest →
            iterate p (length pn) (dict_keys (empties ++ (k, v) :: rest))
              (copy_key (VNode c)) h
            = (h, Raise (AttributeError "SIMULATOR"))) as Hloop;
    [|by apply (Hloop [])].
  clear Hpn. induction empties as [|[k0 v0] empties IH]; intros done Hpn.
  - cbn [app] in *. unfold dict_keys. rewrite fmap_cons. cbn [fst].
    rewrite run_iterate_cons by done. apply run_bind_raise.
    destruct (dict_get_middle k v done rest) as [_ Hk];
      [by rewrite <- Hpn|]. rewrite <- Hpn in Hk.
    by eapply copy_key_no_simulator.
  - apply Forall_cons in Hempties as [(q & Hq & Hnil) Hempties].
    cbn [snd] in Hq. subst v0. cbn [app] in Hpn |- *.
    unfold dict_keys. rewrite fmap_cons. cbn [fst].
    rewrite run_iterate_cons by done.
    destruct (dict_get_middle k0 (VNode q) done (empties ++ (k, v) :: rest))
      as [_ Hk0]; [by rewrite <- Hpn|]. rewrite <- Hpn in Hk0.
    rewrite (run_bind _ _ h h ()) by by eapply copy_key_empty.
    apply (IH Hempties (done ++ [(k0, VNode q)])).
    by rewrite <- app_assoc.
Qed.

Lemma simulator_missing_raises_attribute_error_witness :
  overwrite_simulator_config true (VNode 0) no_simulator_heap
  = (no_simulator_heap, Raise (AttributeError "SIMULATOR")).
Proof.
  apply (simulator_missing_raises_attribute_error true no_simulator_heap 0
           [("PHYSICS_SIMULATOR", VNode 1)] 1
           [("HABITAT_SIM_V0", VNode 2); ("A", VLeaf (LInt 9))]
           [("HABITAT_SIM_V0", VNode 2)] "A" (VLeaf (LInt 9)) []).
  - reflexivity.
  - reflexivity.
  - reflexivity.
  - reflexivity.
  - unfold wf_dict. solve_nodup.
  - reflexivity.
  - apply Forall_cons_2; [|apply Forall_nil_2]. exists 2. by split.
  - by intros ? [=].
Defined.

(** * Averaging episodes that carry the same metrics *)

(** The keys of a dictionary after [d[k] = ...] for a key [k]. *)
Definition add_new (ks : list string) (k : string) : list string :=
  if decide (k ∈ ks) then ks else ks ++ [k].

Lemma fold_set_keys {A B : Type} (g : option B → A → B)
    (items : dict A) (acc : dict B) :
  dict_keys
    (fold_left (λ a kv, dict_set kv.1 (g (dict_get kv.1 a) kv.2) a) items acc)
  = fold_left add_new (dict_keys items) (dict_keys acc).
Proof.
  revert acc. induction items as [|[k v] items IH]; intros acc; [done|].
  unfold dict_keys at 2. rewrite fmap_cons. cbn [fold_left fst snd].
  rewrite IH. f_equal. rewrite dict_keys_set. unfold add_new.
  destruct (dict_get k acc) eqn:Hk.
  - rewrite decide_True; [done|]. apply dict_get_is_Some. by rewrite Hk.
  - rewrite decide_False; [done|]. by apply dict_get_None.
Qed.

Lemma add_new_present (l ks : list string) :
  (∀ k, k ∈ l → k ∈ ks) → fold_left add_new l ks = ks.
Proof.
  induction l as [|k l IH]; intros Hall; [done|]. cbn [fold_left].
  unfold add_new at 2. rewrite decide_True by apply Hall, list_elem_of_here.
  apply IH. intros k' Hk'. apply Hall, elem_of_cons. auto.
Qed.

Lemma add_new_fresh (l ks : list string) :
  NoDup (ks ++ l) → fold_left add_new l ks = ks ++ l.
Proof.
  revert ks. induction l as [|k l IH]; intros ks Hnd; [by rewrite app_nil_r|].
  cbn [fold_left]. unfold add_new at 2.
  rewrite decide_False.
  - rewrite IH; rewrite <- app_assoc; done.
  - apply NoDup_app in Hnd as (_ & Hdisj & _). intros Hin.
    apply (Hdisj k Hin), list_elem_of_here.
Qed.

(** A dictionary is the list of its entries: its keys in order, each with the
    value found under it. *)
Lemma dict_of_keys {V : Type} (f : string → V) (d : dict V) :
  wf_dict d →
  (∀ k, k ∈ dict_keys d → dict_get k d = Some (f k)) →
  d = (λ k, (k, f k)) <$> dict_keys d.
Proof.
  unfold wf_dict, dict_keys. induction d as [|[k v] d IH]; intros Hnd Hget; [done|].
  rewrite fmap_cons in Hnd. apply NoDup_cons in Hnd as [Hk Hnd].
  rewrite !fmap_cons. cbn [fst] in *. f_equal.
  - specialize (Hget k (list_elem_of_here _ _)). cbn [dict_get] in Hget.
    rewrite String.eqb_refl in Hget. by injection Hget as ->.
  - apply IH; [done|]. intros k' Hk'.
    assert (k' ≠ k) as Hne by (by intros ->).
    specialize (Hget k'). cbn [dict_get] in Hget.
    destruct (String.eqb_spec k' k); [done|].
    apply Hget, elem_of_cons. auto.
Qed.

Section SameNames.
Context {num : Type} `{!Numeric num}.
Implicit Types (M : dict (dict num)) (agg em : dict num) (ks : list string).

Lemma add_episode_keys_same agg em ks :
  dict_keys agg = ks → dict_keys em = ks →
  dict_keys (add_episode agg em) = ks.
Proof.
  intros Hagg Hem. unfold add_episode, accumulate.
  rewrite (fold_set_keys (λ o v, nadd (default nzero o) v)), Hagg, Hem.
  by apply add_new_present.
Qed.

Lemma aggregate_keys_same M ks :
  M ≠ [] → NoDup ks →
  Forall (λ ep, dict_keys ep.2 = ks) M →
  dict_keys (aggregate M) = ks.
Proof.
  intros Hne Hnd Hall. unfold aggregate.
  destruct M as [|[e em] M]; [done|]. apply Forall_cons in Hall as [Hem Hall].
  cbn [fold_left snd] in *.
  assert (dict_keys (add_episode [] em) = ks) as Hfirst.
  { unfold add_episode, accumulate.
    rewrite (fold_set_keys (λ o v, nadd (default nzero o) v)), Hem.
    by apply (add_new_fresh ks []). }
  revert Hfirst. generalize (add_episode [] em) as agg.
  induction Hall as [|[e' em'] M' Hem' _ IH]; intros agg Hagg; [done|].
  cbn [fold_left snd] in *. by apply IH, add_episode_keys_same.
Qed.

(** When every episode carries the same metric names, in the same order, the
    result is the list of these names in that order, each with the mean of
    its values over all episodes. *)
Theorem avg_metrics_same_names M ks :
  M ≠ [] → NoDup ks →
  Forall (λ ep, dict_keys ep.2 = ks) M →
  compute_avg_metrics M = Ok ((λ k, (k, mean (values_of k M))) <$> ks).
Proof.
  intros Hne Hnd Hall. rewrite compute_avg_metrics_eq. f_equal.
  set (R := fold_left _ (aggregate M) []).
  assert (Forall (λ ep, wf_dict ep.2) M) as Hwf.
  { eapply Forall_impl; [done|]. intros ep Hep. unfold wf_dict. by rewrite Hep. }
  assert (dict_keys R = ks) as Hkeys.
  { unfold R. rewrite (fold_set_keys (λ _ v, ndiv v (length M))).
    rewrite (aggregate_keys_same M ks) by done. by apply (add_new_fresh ks []). }
  rewrite <- Hkeys. apply dict_of_keys; [unfold wf_dict; by rewrite Hkeys|].
  intros k Hk. rewrite Hkeys in Hk.
  rewrite (compute_avg_metrics_get k M R) by (done || apply compute_avg_metrics_eq).
  assert (length (values_of k M) = length M) as Hlen.
  { apply values_of_length_all. intros e em Hin.
    eapply Forall_forall in Hall; [|done]. cbn [snd] in Hall.
    apply dict_get_is_Some. by rewrite Hall. }
  unfold mean. rewrite Hlen.
  destruct (values_of k M); [|done]. by destruct M.
Qed.
End SameNames.

Lemma avg_metrics_same_names_witness :
  compute_avg_metrics full_episodes
  = Ok ((λ k, (k, mean (values_of k full_episodes)))
          <$> ["distance_to_goal"; "success"; "spl"]).
Proof.
  apply (avg_metrics_same_names full_episodes).
  - discriminate.
  - solve_nodup.
  - unfold full_episodes.
    repeat (apply Forall_cons_2; [reflexivity|]). apply Forall_nil_2.
Defined.

(** * The overlay on a configuration whose entries can all be copied *)

(** On a hierarchical configuration in which every entry of
    [PHYSICS_SIMULATOR] is a leaf, an empty section, or a section that
    [SIMULATOR] has as a section too, the loop runs to its end: the call
    returns, or raises [ImportError] when the imports fail. [config] then
    still holds its two section objects, [PHYSICS_SIMULATOR] reads as it
    did before the call at every depth, and [SIMULATOR] holds every leaf
    that [PHYSICS_SIMULATOR] had before the call under its key, and every
    field that a section of [PHYSICS_SIMULATOR] had before the call in its
    own section of the same name. *)
Theorem overlay_copies_every_entry physics_importable
    (h : heap) c cn s p sn pn :
  wf_heap h → hierarchical h (VNode c) →
  h !! c = Some cn →
  dict_get "SIMULATOR" cn = Some (VNode s) →
  dict_get "PHYSICS_SIMULATOR" cn = Some (VNode p) →
  h !! s = Some sn → h !! p = Some pn →
  Forall (copyable h sn) pn →
  ∃ h',
    overwrite_simulator_config physics_importable (VNode c) h
    = (h', if physics_importable then Ok () else Raise ImportError)
    ∧ field h' c "SIMULATOR" = Some (VNode s)
    ∧ field h' c "PHYSICS_SIMULATOR" = Some (VNode p)
    ∧ (∀ depth, reify depth h' (VNode p) = reify depth h (VNode p))
    ∧ copied_from h h' s pn.
Proof.
  intros Hwf Hhier Hc Hsim Hphys Hs Hp Hok.
  destruct (hierarchical_layout h c cn s p Hwf Hhier Hc Hsim Hphys)
    as (sn' & pn' & d & lp & L & Hlp & Hfar).
  assert (sn' = sn) as -> by (pose proof (lay_sim _ _ _ _ _ _ _ L); congruence).
  assert (pn' = pn) as -> by (pose proof (lay_phys _ _ _ _ _ _ _ L); congruence).
  destruct (overwrite_simulator_config_run L physics_importable Hok)
    as (h' & Hinv & Hrun).
  destruct (merged_upto_reads L _ _ Hinv) as (Hc' & _ & _).
  destruct Hinv as (Hframe & (sn1 & Hs1 & Hsn1) & Hchild).
  exists h'. split_and!; [done | | | |].
  - unfold field. by rewrite Hc'.
  - unfold field. by rewrite Hc'.
  - intros depth. apply (reify_frame h h' depth d _ lp Hlp).
    intros x [Hxs Hxc]%Hfar. by apply Hframe.
  - intros k v Hk. unfold field. destruct v as [a|q].
    + rewrite Hs1. cbn [mbind option_bind]. by rewrite Hsn1, Hk.
    + intros ik iv Hik.
      destruct (h !! q) as [qn|] eqn:Hq; [|done].
      cbn [mbind option_bind] in Hik.
      assert (copyable h sn (k, VNode q)) as Hcopy.
      { eapply Forall_forall in Hok; [done|]. by apply dict_get_elem_of. }
      destruct (Hcopy q eq_refl) as [Hempty|[t Ht]].
      { rewrite Hq in Hempty. injection Hempty as ->. done. }
      cbn [fst] in Ht. exists t. rewrite Hs, Hs1. cbn [mbind option_bind].
      split_and!; [done | by rewrite Hsn1, Hk |].
      destruct (Hchild k t Ht) as (tn & tn1 & _ & -> & Hget).
      cbn [mbind option_bind]. rewrite Hget, Hk, Hq.
      cbn [mbind option_bind]. by rewrite Hik.
Qed.

Lemma overlay_copies_every_entry_witness :
  ∃ h',
    overwrite_simulator_config true (VNode 0) example_heap = (h', Ok ())
    ∧ field h' 0 "SIMULATOR" = Some (VNode 1)
    ∧ field h' 0 "PHYSICS_SIMULATOR" = Some (VNode 2)
    ∧ (∀ depth, reify depth h' (VNode 2) = reify depth example_heap (VNode 2))
    ∧ copied_from example_heap h' 1 [("A", VLeaf (LInt 9)); ("B", VNode 4)].
Proof.
  apply (overlay_copies_every_entry true example_heap 0
           [("SIMULATOR", VNode 1); ("PHYSICS_SIMULATOR", VNode 2)] 1 2
           [("A", VLeaf (LInt 1)); ("B", VNode 3)]).
  - unfold wf_heap, example_heap. solve_wf_heap.
  - exists 3, [0; 1; 3; 2; 4]. split; [reflexivity | solve_nodup].
  - reflexivity.
  - reflexivity.
  - reflexivity.
  - reflexivity.
  - reflexivity.
  - apply Forall_cons_2; [by intros ? [=]|].
    apply Forall_cons_2; [|apply Forall_nil_2].
    intros ? [= <-]. right. exists 3. reflexivity.
Defined.
